(** * MeshMonitor auto-responder scripts: resolver, paginator, envelope

    A shallow embedding of the logic shared by [ai.py], [commands.py],
    [fun.py] and [sunrise.py]: the recovery of a command's argument from
    the raw message ([main], first block), the splitting of a reply into
    transport-sized messages ([split_message], [get_commands_list]), the
    choice of the output key ([main], output block) and the date-seeded
    content choice of [FunBot].

    Python [str] values are sequences of Unicode code points; [len] counts
    code points.  They are modelled as lists of code points, Python [int]
    as [Z]. *)

From Stdlib Require Import ZArith NArith Lia List Bool Ascii String.
From Stdlib Require Import Numbers.DecimalString.
From stdpp Require Import base option list gmap strings.

Local Open Scope Z_scope.

(** ** Python strings *)

Module Py.

Definition char := N.
Definition str := list char.

(** A literal of ASCII characters, as code points. *)
Definition lit (s : string) : str :=
  List.map N_of_ascii (list_ascii_of_string s).

Definition SPACE : char := 32%N.
Definition NEWLINE : char := 10%N.
Definition TAB : char := 9%N.
Definition DQUOTE : char := 34%N.
Definition SQUOTE : char := 39%N.
Definition LBRACE : char := 123%N.
Definition RBRACE : char := 125%N.
Definition BULLET : char := 8226%N.

(** [len(s)] *)
Definition len (s : str) : Z := Z.of_nat (length s).

(** [len(l)] for a list *)
Definition len_list {A : Type} (l : list A) : Z := Z.of_nat (length l).

(** [c in s] for a one-character [c] *)
Definition contains (c : char) (s : str) : bool :=
  existsb (N.eqb c) s.

(** [s.split(sep)] for a one-character separator: never returns [[]]. *)
Fixpoint split (sep : char) (s : str) : list str :=
  match s with
  | [] => [[]]
  | c :: rest =>
      if N.eqb c sep then [] :: split sep rest
      else match split sep rest with
           | [] => [[c]]
           | w :: ws => (c :: w) :: ws
           end
  end.

(** [sep.join(l)] *)
Fixpoint join (sep : str) (l : list str) : str :=
  match l with
  | [] => []
  | x :: rest =>
      match rest with
      | [] => x
      | _ :: _ => x ++ sep ++ join sep rest
      end
  end.

(** [s.startswith(p)] *)
Fixpoint startswith (p s : str) : bool :=
  match p, s with
  | [], _ => true
  | _ :: _, [] => false
  | a :: p', b :: s' => N.eqb a b && startswith p' s'
  end.

(** [s.endswith(p)] *)
Definition endswith (p s : str) : bool :=
  startswith (rev p) (rev s).

(** The code points for which [str.isspace] holds; [str.strip()] removes
    exactly these from both ends. *)
Definition isspace (c : char) : bool :=
  ((9 <=? c) && (c <=? 13) || (28 <=? c) && (c <=? 32)
   || (c =? 133) || (c =? 160) || (c =? 5760)
   || (8192 <=? c) && (c <=? 8202)
   || (c =? 8232) || (c =? 8233) || (c =? 8239) || (c =? 8287)
   || (c =? 12288))%N.

(** [s.lstrip()] *)
Fixpoint lstrip (s : str) : str :=
  match s with
  | [] => []
  | c :: rest => if isspace c then lstrip rest else s
  end.

(** [s.strip()] *)
Definition strip (s : str) : str :=
  rev (lstrip (rev (lstrip s))).

(** [s[n:]] for [n >= 0] *)
Definition slice_from (n : nat) (s : str) : str := skipn n s.

(** [s[1:-1]] *)
Definition slice_1_m1 (s : str) : str := removelast (tl s).

(** [a or b] on strings: the first operand unless it is empty. *)
Definition or_str (a b : str) : str :=
  match a with
  | [] => b
  | _ :: _ => a
  end.

(** [str.lower] on ASCII letters; other code points are kept. It agrees
    with Python on strings of ASCII code points. *)
Definition lower_ascii (s : str) : str :=
  List.map (fun c => if ((65 <=? c) && (c <=? 90))%N then (c + 32)%N else c) s.

(** The class [\w] on ASCII code points: letters, digits, underscore. *)
Definition word_ascii (c : char) : bool :=
  ((48 <=? c) && (c <=? 57) || (65 <=? c) && (c <=? 90)
   || (97 <=? c) && (c <=? 122) || (c =? 95))%N.

(** [str(n)] / [f"{n}"] for a non-negative integer *)
Definition str_of_nat (n : nat) : str :=
  lit (NilZero.string_of_uint (Nat.to_uint n)).

(** A value of type [Union[str, List[str]]]: the [response] of a script,
    one string or a list of messages. *)
Inductive response :=
  | Text (s : str)
  | Messages (l : list str).

End Py.

Import Py.

(** ** The paginator: [split_message] *)

Module Paginator.

(** Loop state: the [messages] emitted so far and the accumulator
    ([current_message], a list of lines, or [current_line], a list of
    words). *)
Definition acc := (list str * list str)%type.

(** Body of [for word in words] (ai.py, fun.py, sunrise.py). *)
Definition word_step (max_chars : Z) (st : acc) (word : str) : acc :=
  let '(messages, current_line) := st in
  let test_line :=
    match current_line with
    | [] => word
    | _ :: _ => join [SPACE] (current_line ++ [word])
    end in
  if len test_line <=? max_chars then (messages, current_line ++ [word])
  else
    let messages' :=
      match current_line with
      | [] => messages
      | _ :: _ => messages ++ [join [SPACE] current_line]
      end in
    (messages', [word]).

(** Body of [for line in lines] (ai.py, fun.py, sunrise.py). *)
Definition line_step (max_chars : Z) (st : acc) (line : str) : acc :=
  let '(messages, current_message) := st in
  let test_message :=
    match current_message with
    | [] => line
    | _ :: _ => join [NEWLINE] (current_message ++ [line])
    end in
  if len test_message <=? max_chars then (messages, current_message ++ [line])
  else
    let messages1 :=
      match current_message with
      | [] => messages
      | _ :: _ => messages ++ [join [NEWLINE] current_message]
      end in
    if len line >? max_chars then
      let words := split SPACE line in
      let '(messages2, current_line) :=
        fold_left (word_step max_chars) words (messages1, []) in
      match current_line with
      | [] => (messages2, current_message)
      | _ :: _ => (messages2, [join [SPACE] current_line])
      end
    else (messages1, [line]).

(** [split_message(text, max_chars)] of [AIBot], [FunBot], [SunriseBot]. *)
Definition split_message (text : str) (max_chars : Z) : list str :=
  if len text <=? max_chars then [text]
  else
    let lines := split NEWLINE text in
    let '(messages, current_message) :=
      fold_left (line_step max_chars) lines ([], []) in
    match current_message with
    | [] => messages
    | _ :: _ => messages ++ [join [NEWLINE] current_message]
    end.

End Paginator.

Import Paginator.

(** ** The command directory: [commands.py] *)

Module CommandsBot.

(** Body of [for word in words] in commands.py: the joined test line is
    built without the emptiness test. *)
Definition word_step_cmd (max_chars : Z) (st : acc) (word : str) : acc :=
  let '(messages, current_line) := st in
  let test_line := join [SPACE] (current_line ++ [word]) in
  if len test_line <=? max_chars then (messages, current_line ++ [word])
  else
    let messages' :=
      match current_line with
      | [] => messages
      | _ :: _ => messages ++ [join [SPACE] current_line]
      end in
    (messages', [word]).

(** Body of [for line in lines] in commands.py. *)
Definition line_step_cmd (max_chars : Z) (st : acc) (line : str) : acc :=
  let '(messages, current_message) := st in
  let test_message := join [NEWLINE] (current_message ++ [line]) in
  if len test_message <=? max_chars then (messages, current_message ++ [line])
  else
    let messages1 :=
      match current_message with
      | [] => messages
      | _ :: _ => messages ++ [join [NEWLINE] current_message]
      end in
    if len line >? max_chars then
      let words := split SPACE line in
      let '(messages2, current_line) :=
        fold_left (word_step_cmd max_chars) words (messages1, []) in
      match current_line with
      | [] => (messages2, current_message)
      | _ :: _ => (messages2, [join [SPACE] current_line])
      end
    else (messages1, [line]).

(** [CommandsBot.split_message(text, max_chars)] *)
Definition split_message_cmd (text : str) (max_chars : Z) : list str :=
  if len text <=? max_chars then [text]
  else
    let lines := split NEWLINE text in
    let '(messages, current_message) :=
      fold_left (line_step_cmd max_chars) lines ([], []) in
    match current_message with
    | [] => messages
    | _ :: _ => messages ++ [join [NEWLINE] current_message]
    end.

(** An entry of the [COMMANDS] registry. *)
Record command_info := { desc : str; example : str }.

(** The registry is a dict; iteration follows insertion order, so it is
    kept as an association list. *)
Definition registry := list (str * command_info).

Definition entry (trigger description ex : string) : str * command_info :=
  (lit trigger, {| desc := lit description; example := lit ex |}).

Definition COMMANDS : registry :=
  [ entry "weather {location}" "Get weather for location" "weather 90210";
    entry "sunrise {location}" "Get sunrise/sunset times" "sunrise NYC";
    entry "sunset {location}" "Get sunrise/sunset times" "sunset NYC";
    entry "daylight {location}" "Get sunrise/sunset times" "daylight NYC";
    entry "trivia" "Random trivia question" "trivia";
    entry "fact" "Interesting tech fact" "fact";
    entry "joke" "Get a joke" "joke";
    entry "quote" "Inspirational quote" "quote";
    entry "ask {question}" "AI assistant" "ask what is mesh";
    entry "ai {prompt}" "AI assistant" "ai explain LoRa";
    entry "chat {message}" "AI assistant" "chat how to improve range";
    entry "commands" "List all commands" "commands";
    entry "command" "List all commands" "command" ].

(** The loop that builds [command_lines]. *)
Fixpoint command_lines (commands : registry) : list str :=
  match commands with
  | [] => []
  | (trigger, info) :: rest =>
      if bool_decide (trigger = lit "commands") || bool_decide (trigger = lit "command")
      then command_lines rest
      else (BULLET :: SPACE :: trigger ++ lit " - " ++ desc info) :: command_lines rest
  end.

Definition commands_text (commands : registry) : str :=
  join [NEWLINE] (command_lines commands).

(** [f"Available Commands: Page {i} of {n} (Msg {i}/{n})"] *)
Definition page_header (i n : nat) : str :=
  lit "Available Commands: Page " ++ str_of_nat i ++ lit " of " ++ str_of_nat n
  ++ lit " (Msg " ++ str_of_nat i ++ lit "/" ++ str_of_nat n ++ lit ")".

(** [for i, msg in enumerate(messages, 1)], with [total = len(messages)];
    [i] is the number of the first message of [rest]. *)
Fixpoint number_messages (total i : nat) (rest : list str) : list str :=
  match rest with
  | [] => []
  | msg :: rest' =>
      let header := page_header i total in
      let full_msg := header ++ [NEWLINE] ++ msg in
      (if len full_msg >? 199 then split_message_cmd full_msg 199 else [full_msg])
      ++ number_messages total (S i) rest'
  end.

(** [get_commands_list], for a registry [commands]. *)
Definition get_commands_list (commands : registry) : response :=
  let max_chars_for_commands := 199 - 50 in
  let messages := split_message_cmd (commands_text commands) max_chars_for_commands in
  if len_list messages >? 1 then
    Messages (number_messages (length messages) 1 messages)
  else
    match messages with
    | m0 :: _ => Text (lit "Available Commands:" ++ [NEWLINE] ++ m0)
    | [] => Text (lit "No commands available.")
    end.

End CommandsBot.

Import CommandsBot.

(** ** The parameter resolver: first block of [main] in ai.py and sunrise.py *)

Module Resolver.

(** [os.environ.get(key, default)] *)
Definition environ_get (environ : gmap string str) (key : string) (dflt : str) : str :=
  default dflt (environ !! key).

(** The quote removal repeated after each extraction:
    [if q.startswith('"') and q.endswith('"'): q = q[1:-1]], then the
    same with the single quote. *)
Definition strip_quotes (q : str) : str :=
  if startswith [DQUOTE] q && endswith [DQUOTE] q then slice_1_m1 q
  else if startswith [SQUOTE] q && endswith [SQUOTE] q then slice_1_m1 q
  else q.

(** [original_message[len(prefix):].strip()] followed by the quote
    removal. *)
Definition extract_after (prefix original_message : str) : str :=
  strip_quotes (strip (slice_from (length prefix) original_message)).

(** The prefixes tried by ai.py when no trigger pattern is available. *)
Definition known_prefixes : list str := [lit "ask "; lit "ai "; lit "chat "].

Section WithUnicodeTables.

(** [str.lower] and the regular-expression class [\w] depend on the
    Unicode tables of the interpreter; the resolver is defined over any
    such pair. *)
Variable lower : str -> str.
Variable is_word : char -> bool.

(** [\w+\}] matched at the head of [s]. *)
Fixpoint match_name_close (s : str) : bool :=
  match s with
  | [] => false
  | c :: rest =>
      is_word c && (startswith [RBRACE] rest || match_name_close rest)
  end.

(** [re.search(r'\{(\w+)\}', s)] finds a match. *)
Fixpoint re_search_param (s : str) : bool :=
  match s with
  | [] => false
  | c :: rest => (N.eqb c LBRACE) && match_name_close rest || re_search_param rest
  end.

(** [trigger_pattern.split('{')[0].strip()] *)
Definition prefix_before_brace (trigger_pattern : str) : str :=
  strip (hd [] (split LBRACE trigger_pattern)).

(** [trigger_pattern.split('{')[0].strip() if '{' in trigger_pattern
    else trigger_pattern] *)
Definition literal_prefix (trigger_pattern : str) : str :=
  if contains LBRACE trigger_pattern
  then prefix_before_brace trigger_pattern
  else trigger_pattern.

(** [for prefix in ['ask ', 'ai ', 'chat ']: ... break] *)
Fixpoint known_prefix_loop (prefixes : list str)
    (original_message message_lower question : str) : str :=
  match prefixes with
  | [] => question
  | prefix :: rest =>
      if startswith prefix message_lower then extract_after prefix original_message
      else known_prefix_loop rest original_message message_lower question
  end.

Definition nonempty (s : str) : bool :=
  match s with
  | [] => false
  | _ :: _ => true
  end.

(** ai.py: the value of [question] after the first block of [main], from
    the host parameter (the first non-empty of [PARAM_question],
    [PARAM_prompt], [PARAM_message]), [MESSAGE] and [TRIGGER]. *)
Definition ai_resolve (hostParam rawMessage triggerPattern : str) : str :=
  let question := strip hostParam in
  if negb (nonempty question) || (len question <? 3) && contains SPACE rawMessage then
    let original_message := strip rawMessage in
    let trigger_pattern := strip triggerPattern in
    if nonempty original_message && nonempty trigger_pattern then
      if re_search_param trigger_pattern then
        let trigger_prefix := prefix_before_brace trigger_pattern in
        if startswith (lower trigger_prefix) (lower original_message)
        then extract_after trigger_prefix original_message
        else question
      else
        let trigger_prefix := literal_prefix trigger_pattern in
        if startswith (lower trigger_prefix) (lower original_message)
        then extract_after trigger_prefix original_message
        else question
    else if nonempty original_message then
      known_prefix_loop known_prefixes original_message (lower original_message) question
    else question
  else question.

(** sunrise.py: the value of [location] after the first block of [main]. *)
Definition sunrise_resolve (hostParam rawMessage triggerPattern : str) : str :=
  let location := strip hostParam in
  if negb (nonempty location) || (len location <? 2) && contains SPACE rawMessage then
    let original_message := strip rawMessage in
    let trigger_pattern := strip triggerPattern in
    if nonempty original_message && nonempty trigger_pattern then
      if re_search_param trigger_pattern then
        let trigger_prefix := prefix_before_brace trigger_pattern in
        if startswith (lower trigger_prefix) (lower original_message)
        then extract_after trigger_prefix original_message
        else location
      else location
    else location
  else location.

(** ai.py [main]: [question] as read from the environment. *)
Definition ai_main_question (environ : gmap string str) : str :=
  ai_resolve
    (or_str (environ_get environ "PARAM_question" [])
       (or_str (environ_get environ "PARAM_prompt" [])
          (environ_get environ "PARAM_message" [])))
    (environ_get environ "MESSAGE" [])
    (environ_get environ "TRIGGER" []).

(** sunrise.py [main]: [location] as read from the environment. *)
Definition sunrise_main_location (environ : gmap string str) : str :=
  sunrise_resolve
    (environ_get environ "PARAM_location" [])
    (environ_get environ "MESSAGE" [])
    (environ_get environ "TRIGGER" []).

End WithUnicodeTables.

End Resolver.

Import Resolver.

(** ** The envelope: output block of [main] *)

Module Envelope.

(** [if not response: response = 'Error: No response generated']: an
    empty string and an empty list are both replaced. *)
Definition ensure_response (r : response) : response :=
  match r with
  | Text [] => Text (lit "Error: No response generated")
  | Messages [] => Text (lit "Error: No response generated")
  | _ => r
  end.

(** The dict [output]: [{'responses': response}] for a list,
    [{'response': response}] otherwise. It is then printed with
    [json.dumps]. *)
Definition build_output (r : response) : gmap string response :=
  match r with
  | Messages _ => {[ "responses"%string := r ]}
  | Text _ => {[ "response"%string := r ]}
  end.

End Envelope.

Import Envelope.

(** ** The fun bot: [FunBot] in fun.py *)

Module FunBot.

(** [datetime.now()] *)
Record datetime := {
  year : Z; month : Z; day : Z;
  hour : Z; minute : Z; second : Z; microsecond : Z
}.

Definition is_leap (y : Z) : bool :=
  (y mod 4 =? 0) && (negb (y mod 100 =? 0) || (y mod 400 =? 0)).

(** Days of the year before the first day of month [m]. *)
Definition days_before_month (y m : Z) : Z :=
  let feb := if is_leap y then 29 else 28 in
  let lengths := [31; feb; 31; 30; 31; 30; 31; 31; 30; 31; 30; 31] in
  fold_right Z.add 0 (firstn (Z.to_nat (m - 1)) lengths).

(** [today.timetuple().tm_yday] *)
Definition tm_yday (today : datetime) : Z :=
  days_before_month (year today) (month today) + day today.

Definition trivia_list : list str := List.map lit
  [ "Q: What does LoRa stand for? A: Long Range radio technology.";
    "Q: What frequency band do most Meshtastic nodes use? A: 915 MHz (US) or 868 MHz (EU).";
    "Q: What is mesh networking? A: A network where nodes relay messages for each other.";
    "Q: What is the max range of LoRa? A: Up to 10+ miles line-of-sight.";
    "Q: What does MQTT stand for? A: Message Queuing Telemetry Transport.";
    "Q: What is a hop in mesh networking? A: One relay between source and destination.";
    "Q: What is the ISM band? A: Industrial, Scientific, Medical radio band (unlicensed).";
    "Q: What does APRS stand for? A: Automatic Packet Reporting System.";
    "Q: What is packet radio? A: Digital data transmission over radio waves.";
    "Q: What does RSSI measure? A: Received Signal Strength Indicator." ]%string.

Definition facts : list str := List.map lit
  [ "Meshtastic can work completely offline - no internet required!";
    "LoRa can transmit through obstacles better than WiFi or Bluetooth.";
    "Mesh networks are self-healing - if one node fails, others route around it.";
    "The first packet radio network was created in the 1970s by amateur radio operators.";
    "LoRa uses spread spectrum modulation for long-range, low-power communication.";
    "Mesh networks can span hundreds of miles with enough relay nodes.";
    "Meshtastic uses encryption to secure all messages on the mesh.";
    "LoRa devices can run for months on battery power.";
    "The 915 MHz band is shared with WiFi, Bluetooth, and other devices.";
    "Mesh networks are used in disaster relief when infrastructure fails." ]%string.

Definition jokes : list str := List.map lit
  [ "Why did the mesh node break up? It couldn't find a good connection!";
    "What do you call a mesh network that tells jokes? A pun-net!";
    "Why do mesh nodes make good friends? They're always relaying messages!";
    "What's a mesh node's favorite song? 'I Will Always Route You'!";
    "Why did the packet cross the mesh? To get to the other node!";
    "What do you call a sleeping mesh network? A nap-net!";
    "Why are mesh nodes so reliable? They always hop to it!";
    "What's a mesh node's favorite game? Hopscotch!";
    "Why don't mesh nodes get lost? They always know the route!";
    "What do mesh nodes say when they meet? 'Nice to relay you!'" ]%string.

Definition quotes : list str := List.map lit
  [ "The network is the computer. - John Gage";
    "Communication is the key to understanding. - Unknown";
    "In a mesh network, every node is important. - Mesh Philosophy";
    "The best network is one that works when you need it most. - Unknown";
    "Radio waves connect us across distances. - Ham Radio Operator";
    "A mesh network is only as strong as its weakest link. - Network Theory";
    "Technology should serve humanity, not the other way around. - Unknown";
    "The internet of things starts with the mesh of things. - Unknown";
    "In disaster, mesh networks become lifelines. - Emergency Responder";
    "Connectivity is a human right. - Digital Rights Advocate" ]%string.

(** The four content methods of [FunBot], as a request. *)
Inductive getter := Trivia | Fact | Joke | Quote.

Section WithRandom.

(** The module-level generator of [random]: [seed n] is the state after
    [random.seed(n)], which forgets the previous state; [randbelow g n]
    draws an index below [n] and gives the next state. *)
Variable rng : Type.
Variable seed : Z -> rng.
Variable randbelow : rng -> nat -> nat * rng.

(** [random.choice(seq)] is [seq[randbelow(len(seq))]]. *)
Definition choice (g : rng) (seq : list str) : str * rng :=
  let '(i, g') := randbelow g (length seq) in
  (nth i seq [], g').

(** [FunBot.__init__], run when [datetime.now()] returns [today]: the
    generator state it leaves. *)
Definition init (today : datetime) : rng :=
  seed (year today * 1000 + tm_yday today).

(** The content methods: the string returned and the next state. *)
Definition get_trivia (g : rng) : str * rng := choice g trivia_list.
Definition get_fact (g : rng) : str * rng := choice g facts.
Definition get_joke (g : rng) : str * rng := choice g jokes.
Definition get_quote (g : rng) : str * rng := choice g quotes.

Definition call (m : getter) (g : rng) : str * rng :=
  match m with
  | Trivia => get_trivia g
  | Fact => get_fact g
  | Joke => get_joke g
  | Quote => get_quote g
  end.

(** One run: construct the bot at [now], call [m]. *)
Definition run (now : datetime) (m : getter) : str :=
  fst (call m (init now)).

End WithRandom.

(** Two instants of the same calendar date. *)
Definition same_date (a b : datetime) : Prop :=
  year a = year b /\ month a = month b /\ day a = day b.

End FunBot.

Import FunBot.

(** ** The AI bot: [AIBot.get_ai_response] in ai.py *)

Module AIBot.

Inductive provider := ollama | openai | anthropic.

(** The fields of [AIBot] read by [get_ai_response]. *)
Record bot := {
  bot_provider : str;
  openai_key : str;
  anthropic_key : str
}.

(** [AIBot.__init__], from the module-level configuration:
    [AI_PROVIDER] (default [ollama], lower-cased) and the two API keys. *)
Definition from_environ (lower : str -> str) (environ : gmap string str) : bot :=
  {| bot_provider := lower (environ_get environ "AI_PROVIDER" (lit "ollama"));
     openai_key := environ_get environ "OPENAI_API_KEY" [];
     anthropic_key := environ_get environ "ANTHROPIC_API_KEY" [] |}.

(** The dicts returned by the content handlers hold one of the keys
    [error] and [response]. *)
Inductive result :=
  | Err (message : str)
  | Ok (text : str).

(** The order in which the providers are tried. *)
Definition providers_for (name : str) : list provider :=
  if bool_decide (name = lit "ollama") then [ollama; openai; anthropic]
  else if bool_decide (name = lit "openai") then [openai; ollama; anthropic]
  else if bool_decide (name = lit "anthropic") then [anthropic; openai; ollama]
  else [ollama; openai; anthropic].

(** [if response_text:] on an [Optional[str]] *)
Definition truthy (response_text : option str) : bool :=
  match response_text with
  | Some (_ :: _) => true
  | _ => false
  end.

Section WithProviders.

(** [query p prompt] is what [query_ollama], [query_openai] or
    [query_anthropic] returns for [prompt]: a text, or [None] after an
    error. These are network calls. *)
Variable query : provider -> str -> option str.

Variable self : bot.
Variable question : str.

(** [for provider in providers: ... if response_text: break], with the
    list of the providers queried so far. *)
Fixpoint provider_loop (providers : list provider) (response_text : option str)
    (queried : list provider) : option str * list provider :=
  match providers with
  | [] => (response_text, queried)
  | p :: rest =>
      let '(response_text', queried') :=
        match p with
        | ollama => (query ollama question, queried ++ [ollama])
        | openai =>
            if nonempty (openai_key self)
            then (query openai question, queried ++ [openai])
            else (response_text, queried)
        | anthropic =>
            if nonempty (anthropic_key self)
            then (query anthropic question, queried ++ [anthropic])
            else (response_text, queried)
        end in
      if truthy response_text' then (response_text', queried')
      else provider_loop rest response_text' queried'
  end.

(** [get_ai_response(question)]: the dict returned and the providers
    queried, in order. *)
Definition get_ai_response : result * list provider :=
  if negb (nonempty question) || negb (nonempty (strip question)) then
    (Err (lit "Please provide a question or prompt."), [])
  else
    let '(response_text, queried) :=
      provider_loop (providers_for (bot_provider self)) None [] in
    match response_text with
    | Some (c :: text) => (Ok (c :: text), queried)
    | _ => (Err (lit "AI service unavailable. Check Ollama service or API keys."),
            queried)
    end.

End WithProviders.

End AIBot.

Import AIBot.

(** ** The time format of sunrise.py: [SunriseBot.format_time] *)

Module SunriseBot.

Definition COLON : char := 58%N.

(** [str(n)] for an integer *)
Definition str_of_Z (n : Z) : str :=
  if n <? 0 then lit "-" ++ str_of_nat (Z.to_nat (- n)) else str_of_nat (Z.to_nat n).

(** [f'{n:02d}']: at least two characters, the sign included, padded
    with zeros. *)
Definition format_02d (n : Z) : str :=
  if n <? 0 then str_of_Z n
  else if n <? 10 then lit "0" ++ str_of_Z n
  else str_of_Z n.

Section WithLibraries.

(** [int_of s] is [int(s)], [None] when it raises [ValueError].
    [to_local zone h m s] is the hour and minute of today's date at
    [h:m:s] UTC in the zone named [zone], [None] when [ZoneInfo] raises.
    [zoneinfo] tells whether the module [zoneinfo] could be imported. *)
Variable int_of : str -> option Z.
Variable to_local : str -> Z -> Z -> Z -> option (Z * Z).
Variable zoneinfo : bool.

(** [format_time(time_str, timezone_name)]: every exception inside is
    caught and [time_str] is returned. [datetime(...)] raises unless
    the hour is in [0, 23] and minute and second are in [0, 59]. *)
Definition format_time (time_str : str) (timezone_name : option str) : str :=
  match List.map int_of (split COLON time_str) with
  | [Some hour; Some minute; Some second] =>
      if (0 <=? hour) && (hour <=? 23) && (0 <=? minute) && (minute <=? 59)
         && (0 <=? second) && (second <=? 59) then
        let '(hour_local, minute) :=
          match timezone_name with
          | Some zone =>
              if nonempty zone && zoneinfo then
                match to_local zone hour minute second with
                | Some (h, m) => (h, m)
                | None => (hour, minute)
                end
              else (hour, minute)
          | None => (hour, minute)
          end in
        let period := if hour_local <? 12 then lit "AM" else lit "PM" in
        let hour_12 := if hour_local <=? 12 then hour_local else hour_local - 12 in
        let hour_12 := if hour_12 =? 0 then 12 else hour_12 in
        str_of_Z hour_12 ++ lit ":" ++ format_02d minute ++ lit " " ++ period
      else time_str
  | _ => time_str
  end.

(** [iso.split('T')[1].split('+')[0]]: the time of day in a timestamp
    such as [2015-05-21T05:05:35+00:00]; [None] when the index 1 does not
    exist ([IndexError]). *)
Definition T_LETTER : char := 84%N.
Definition PLUS : char := 43%N.

Definition utc_time (iso : str) : option str :=
  match split T_LETTER iso with
  | _ :: second :: _ => Some (hd [] (split PLUS second))
  | _ => None
  end.

(** The end of [get_sunrise_sunset], once the service has answered:
    [status] is [data.get('status')], [sunrise_utc], [sunset_utc] and
    [day_length] are the fields of [results], [title] is [str.title]. An
    [IndexError] is reported by the last [except] clause. *)
Definition sunrise_text (title : str -> str) (location : str)
    (timezone_name : option str) (status : option str)
    (sunrise_utc sunset_utc : str) (day_length : Z) : result :=
  if negb (bool_decide (status = Some (lit "OK"))) then
    Err (lit "Sunrise-sunset API returned an error")
  else
    match utc_time sunrise_utc, utc_time sunset_utc with
    | Some sunrise_utc_time, Some sunset_utc_time =>
        let sunrise_formatted := format_time sunrise_utc_time timezone_name in
        let sunset_formatted := format_time sunset_utc_time timezone_name in
        let day_hours := day_length / 3600 in
        let day_minutes := (day_length mod 3600) / 60 in
        Ok (title location ++ lit ": Sunrise " ++ sunrise_formatted
            ++ lit " | Sunset " ++ sunset_formatted
            ++ lit " | Day: " ++ str_of_Z day_hours ++ lit "h "
            ++ str_of_Z day_minutes ++ lit "m")
    | _, _ => Err (lit "Unexpected error: list index out of range")
    end.

End WithLibraries.

End SunriseBot.

Import SunriseBot.

(** ** The dispatchers: [main] of the four scripts *)

Module Dispatch.

(** A line of a help text that starts with a bullet. *)
Definition bullet (s : string) : str := BULLET :: SPACE :: lit s.

(** A piece of text between double quotes. *)
Definition quoted (s : string) : str := [DQUOTE] ++ lit s ++ [DQUOTE].

(** [messages[0] if len(messages) == 1 else messages] *)
Definition unwrap_single (messages : list str) : response :=
  match messages with
  | [m] => Text m
  | _ => Messages messages
  end.

(** [if isinstance(response, str) and len(response) > 199: ...]: a long
    string is split and a one-element result unwrapped. *)
Definition split_long (r : response) : response :=
  match r with
  | Text s => if len s >? 199 then unwrap_single (split_message s 199) else r
  | Messages _ => r
  end.

(** The strings of a reply, as they are sent. *)
Definition messages_of (r : response) : list str :=
  match r with
  | Text s => [s]
  | Messages l => l
  end.

(** The message built by the outermost [except Exception as e], from
    [str(e)]. *)
Definition error_message (e : str) : str :=
  let error_msg := lit "Error: " ++ e in
  if len error_msg >? 195 then firstn 192 error_msg ++ lit "..." else error_msg.

Definition ai_help_text : str :=
  join [NEWLINE]
    [ lit "AI Assistant:";
      bullet "ask {question} - Ask AI";
      bullet "ai {prompt} - Same";
      bullet "chat {message} - Same";
      lit "Examples:";
      bullet "ask " ++ quoted "What is mesh?";
      bullet "ai " ++ quoted "How to improve range?";
      lit "See script for more details." ].

Definition ai_usage : str :=
  join [NEWLINE]
    [ lit "AI Assistant requires a question.";
      lit "Usage:";
      bullet "ask {question} - Ask AI a question";
      bullet "ai {prompt} - Same as ask";
      bullet "chat {message} - Same as ask";
      lit "Examples:";
      bullet "ask " ++ quoted "What is mesh?";
      bullet "ai " ++ quoted "How to improve range?" ].

Definition fun_help_text : str :=
  join [NEWLINE]
    [ lit "Fun Bot:";
      bullet "trivia - Random trivia";
      bullet "fact - Tech fact";
      bullet "joke - Get joke";
      bullet "quote - Inspiration";
      lit "Examples:";
      bullet "trivia";
      bullet "fact";
      lit "See script for more details." ].

Definition ARROW : char := 8594%N.

Definition fun_no_command : str :=
  join [NEWLINE]
    [ lit "Error: Command not specified.";
      lit "Configure trigger with PARAM_command:";
      bullet "trivia " ++ [ARROW] ++ lit " PARAM_command=trivia";
      bullet "fact " ++ [ARROW] ++ lit " PARAM_command=fact";
      bullet "joke " ++ [ARROW] ++ lit " PARAM_command=joke";
      bullet "quote " ++ [ARROW] ++ lit " PARAM_command=quote" ].

Definition sunrise_help_text : str :=
  join [NEWLINE]
    [ lit "Sunrise/Sunset Bot:";
      bullet "sunrise {location} - Get times";
      bullet "sunset {location} - Same";
      bullet "daylight {location} - Same";
      lit "Examples:";
      bullet "sunrise 90210";
      bullet "sunset NYC";
      lit "See script for details." ].

Definition sunrise_usage : str :=
  join [NEWLINE]
    [ lit "Sunrise/Sunset requires a location.";
      lit "Usage:";
      bullet "sunrise {location} - Get times";
      bullet "sunset {location} - Same";
      bullet "daylight {location} - Same";
      lit "Examples:";
      bullet "sunrise 90210";
      bullet "sunset " ++ quoted "New York, NY" ].

(** The reply of sunrise.py to a handler error. *)
Definition sunrise_error (error_msg : str) : str :=
  join [NEWLINE]
    [ lit "Error: " ++ error_msg;
      lit "Usage: sunrise {location}";
      lit "Examples: sunrise 90210, sunset " ++ quoted "NYC" ].

Definition commands_help_text : str :=
  join [NEWLINE]
    [ lit "Commands Bot:";
      bullet "commands - List commands";
      bullet "command - Same";
      lit "Note: Use " ++ quoted "commands" ++ lit " not " ++ quoted "help";
      lit "See script to add custom commands." ].

(** [get_help] of [AIBot], [FunBot] and [SunriseBot]: the help text goes
    through [split_message]. *)
Definition get_help (help_text : str) : response :=
  unwrap_single (split_message help_text 199).

(** [s in ['help', 'h', '?']] *)
Definition is_help_word (s : str) : bool :=
  bool_decide (s = lit "help") || bool_decide (s = lit "h") || bool_decide (s = lit "?").

(** [s.split()]: the pieces between runs of whitespace, none empty.
    [word] is the piece being read. *)
Fixpoint split_whitespace_from (word s : str) : list str :=
  match s with
  | [] =>
      match word with
      | [] => []
      | _ :: _ => [word]
      end
  | c :: rest =>
      if isspace c then
        match word with
        | [] => split_whitespace_from [] rest
        | _ :: _ => word :: split_whitespace_from [] rest
        end
      else split_whitespace_from (word ++ [c]) rest
  end.

Definition split_whitespace (s : str) : list str := split_whitespace_from [] s.

Section WithUnicodeTables.

Variable lower : str -> str.
Variable is_word : char -> bool.

(** *** ai.py *)

Section AI.

Variable query : provider -> str -> option str.

(** [main] of ai.py up to the output block: the reply and the providers
    queried. *)
Definition ai_response (environ : gmap string str) : response * list provider :=
  let question := ai_main_question lower is_word environ in
  let bot := from_environ lower environ in
  if negb (nonempty question) then (Text ai_usage, [])
  else if is_help_word (lower question) then (get_help ai_help_text, [])
  else
    let '(result, queried) := get_ai_response query bot question in
    match result with
    | Err message => (Text (lit "Error: " ++ message), queried)
    | Ok text => (split_long (Text text), queried)
    end.

(** The dict printed by ai.py. *)
Definition ai_main (environ : gmap string str) : gmap string response :=
  build_output (ensure_response (fst (ai_response environ))).

End AI.

(** *** sunrise.py *)

Section Sunrise.

(** [get_sunrise_sunset(location)], which calls the geocoding, time zone
    and sunrise services. *)
Variable get_sunrise_sunset : str -> result.

Definition sunrise_response (environ : gmap string str) : response :=
  let location := sunrise_main_location lower is_word environ in
  let response :=
    if negb (nonempty location) then Text sunrise_usage
    else if is_help_word (lower location) then get_help sunrise_help_text
    else
      match get_sunrise_sunset location with
      | Err error_msg => Text (sunrise_error error_msg)
      | Ok text => Text text
      end in
  split_long response.

Definition sunrise_main (environ : gmap string str) : gmap string response :=
  build_output (ensure_response (sunrise_response environ)).

End Sunrise.

(** *** fun.py *)

Section Fun.

Variable rng : Type.
Variable seed : Z -> rng.
Variable randbelow : rng -> nat -> nat * rng.

(** The command of fun.py: [PARAM_command], or the first word of
    [MESSAGE] when it names a content method. *)
Definition fun_command (environ : gmap string str) : str :=
  let command := lower (strip (environ_get environ "PARAM_command" [])) in
  if negb (nonempty command) then
    let original_message := lower (strip (environ_get environ "MESSAGE" [])) in
    if nonempty original_message then
      let first_word :=
        match split_whitespace original_message with
        | w :: _ => w
        | [] => []
        end in
      if bool_decide (first_word = lit "trivia") || bool_decide (first_word = lit "fact")
         || bool_decide (first_word = lit "joke") || bool_decide (first_word = lit "quote")
      then first_word
      else command
    else command
  else command.

(** [main] of fun.py up to the output block, run when [datetime.now()]
    returns [now]. *)
Definition fun_response (now : datetime) (environ : gmap string str) : response :=
  let command := fun_command environ in
  let bot := FunBot.init rng seed now in
  let response :=
    if is_help_word command then get_help fun_help_text
    else if bool_decide (command = lit "trivia") then Text (fst (get_trivia rng randbelow bot))
    else if bool_decide (command = lit "fact") then Text (fst (get_fact rng randbelow bot))
    else if bool_decide (command = lit "joke") then Text (fst (get_joke rng randbelow bot))
    else if bool_decide (command = lit "quote") then Text (fst (get_quote rng randbelow bot))
    else if negb (nonempty command) then Text fun_no_command
    else get_help fun_help_text in
  split_long response.

Definition fun_main (now : datetime) (environ : gmap string str) : gmap string response :=
  build_output (ensure_response (fun_response now environ)).

End Fun.

(** *** commands.py *)

Definition commands_response (commands : registry) (environ : gmap string str) : response :=
  let command := lower (strip (environ_get environ "PARAM_command" [])) in
  if is_help_word command then Text commands_help_text
  else if negb (nonempty command) || bool_decide (command = lit "commands")
          || bool_decide (command = lit "command")
  then get_commands_list commands
  else Text commands_help_text.

Definition commands_main (commands : registry) (environ : gmap string str)
    : gmap string response :=
  build_output (ensure_response (commands_response commands environ)).

End WithUnicodeTables.

End Dispatch.

Import Dispatch.

(** ** Vocabulary of the statements *)

(** The words of a text: the space-separated pieces of its lines. *)
Definition words_of (text : str) : list str :=
  flat_map (split SPACE) (split NEWLINE text).

(** No code point of [s] is whitespace in the sense of [str.isspace]. *)
Definition whitespace_free (s : str) : bool :=
  forallb (fun c => negb (isspace c)) s.

(** A message is admissible for [text] under [max_chars] when it fits,
    or is one oversized word of the text. *)
Definition admissible (max_chars : Z) (text c : str) : Prop :=
  len c <= max_chars \/ (max_chars < len c /\ In c (words_of text)).

(** Invariant of the loop over words: the emitted messages are
    admissible, and so is the joined accumulator unless it is empty. *)
Definition word_inv (max_chars : Z) (text : str) (st : acc) : Prop :=
  Forall (admissible max_chars text) (fst st) /\
  match snd st with
  | [] => True
  | _ :: _ => admissible max_chars text (join [SPACE] (snd st))
  end.

(** Invariant of the loop over lines. *)
Definition line_inv (max_chars : Z) (text : str) (st : acc) : Prop :=
  Forall (admissible max_chars text) (fst st) /\
  match snd st with
  | [] => True
  | _ :: _ => admissible max_chars text (join [NEWLINE] (snd st))
  end.

(** A registry with one trigger of 200 characters. *)
Definition long_trigger_registry : registry :=
  [(repeat 120%N 200, {| desc := lit "d"; example := lit "x" |})].

(** A toy generator for [random]: the state is a counter. *)
Definition counter_randbelow (g : Z) (n : nat) : nat * Z :=
  (Z.to_nat (g mod Z.of_nat n), g + 1).

(** The content of a string: its code points other than the two
    separators of the paginator, in order. *)
Definition letters (s : str) : str :=
  List.filter (fun c => negb (N.eqb c SPACE || N.eqb c NEWLINE)) s.

(** What the two loops have taken in so far: the content of the emitted
    messages followed by the content of the accumulator. *)
Definition content_of (st : acc) : str :=
  letters (List.concat (fst st)) ++ letters (List.concat (snd st)).

(** The state of the loop over lines stands for the lines [seen]: both
    are empty, or they join to the same string. *)
Definition stands_for (st : acc) (seen : list str) : Prop :=
  (fst st ++ snd st = [] /\ seen = []) \/
  (fst st ++ snd st <> [] /\ seen <> [] /\
   join [NEWLINE] (fst st ++ snd st) = join [NEWLINE] seen).

(** Nothing in the state of a loop is the empty string. *)
Definition all_nonempty (st : acc) : Prop :=
  Forall (fun s : str => s <> []) (fst st) /\
  Forall (fun s : str => s <> []) (snd st).

(** A provider that [get_ai_response] may query: Ollama, or a cloud
    provider whose key is set. *)
Definition available (self : bot) (p : provider) : bool :=
  match p with
  | ollama => true
  | openai => nonempty (openai_key self)
  | anthropic => nonempty (anthropic_key self)
  end.

(** The elements of [l] up to and including the first that satisfies
    [f]; all of [l] when none does. *)
Fixpoint upto_first {A : Type} (f : A -> bool) (l : list A) : list A :=
  match l with
  | [] => []
  | x :: rest => if f x then [x] else x :: upto_first f rest
  end.

(** A message that the transport takes: at most 199 characters, or one
    longer word without space and newline. *)
Definition sendable (c : str) : Prop :=
  len c <= 199 \/
  (199 < len c /\ contains SPACE c = false /\ contains NEWLINE c = false).

(** A reply that the output block prints as it is: a non-empty string,
    or a list of at least two messages. *)
Definition well_shaped (r : response) : Prop :=
  match r with
  | Text s => s <> []
  | Messages l => (2 <= length l)%nat
  end.

(** Hour [h] of the day and minute [m] on the 12-hour clock. *)
Definition clock_12 (h m : Z) : str :=
  str_of_Z ((h + 11) mod 12 + 1) ++ lit ":" ++ format_02d m ++ lit " "
  ++ (if h <? 12 then lit "AM" else lit "PM").

(** Sample providers: Ollama is down, OpenAI answers, Anthropic
    returns an empty text. *)
Definition sample_query (p : provider) (prompt : str) : option str :=
  match p with
  | ollama => None
  | openai => Some (lit "A mesh relays messages.")
  | anthropic => Some []
  end.

(** A lookup that fails, as in the end-to-end scenario. *)
Definition sample_lookup (location : str) : result :=
  Err (lit "Could not find coordinates for location: " ++ location ++ lit ".").

(** [int] on a string of ASCII digits, for examples. *)
Fixpoint digits_value (value : Z) (s : str) : option Z :=
  match s with
  | [] => Some value
  | c :: rest =>
      if ((48 <=? c) && (c <=? 57))%N
      then digits_value (10 * value + (Z.of_N c - 48)) rest
      else None
  end.

Definition int_of_digits (s : str) : option Z :=
  match s with
  | [] => None
  | _ :: _ => digits_value 0 s
  end.

(** A string with every space read as a newline. *)
Definition space_as_newline (s : str) : str :=
  List.map (fun c => if N.eqb c SPACE then NEWLINE else c) s.

(** The pieces [l] joined with newlines, every space read as a newline. *)
Definition joined (l : list str) : str :=
  space_as_newline (join [NEWLINE] l).

(** The state of a loop stands for the pieces [seen] up to the choice
    between space and newline: both are empty, or they join to the same
    string. *)
Definition stands_for_joined (st : acc) (seen : list str) : Prop :=
  (fst st ++ snd st = [] /\ seen = []) \/
  (fst st ++ snd st <> [] /\ seen <> [] /\ joined (fst st ++ snd st) = joined seen).

(** * Proofs *)

(** *** Facts on [split] and [join] *)

Section SplitJoin.

Lemma split_not_nil (sep : char) (s : str) : split sep s <> [].
Proof.
  induction s as [|c rest IH]; simpl; [discriminate|].
  destruct (N.eqb c sep); [discriminate|].
  destruct (split sep rest); discriminate.
Qed.

(** No piece of a split contains the separator. *)
Lemma split_pieces_free (sep : char) (s w : str) :
  In w (split sep s) -> contains sep w = false.
Proof.
  revert w. induction s as [|c rest IH]; simpl; intros w Hin.
  - destruct Hin as [<-|[]]. reflexivity.
  - destruct (N.eqb c sep) eqn:E.
    + destruct Hin as [<-|Hin]; [reflexivity|auto].
    + destruct (split sep rest) as [|w0 ws] eqn:S.
      * destruct Hin as [<-|[]]. simpl. rewrite N.eqb_sym, E. reflexivity.
      * destruct Hin as [<-|Hin].
        -- simpl. rewrite N.eqb_sym, E. simpl. apply IH. now left.
        -- apply IH. now right.
Qed.

(** A character absent from [s] is absent from every piece of [s]. *)
Lemma split_pieces_keep_free (sep c : char) (s w : str) :
  contains c s = false -> In w (split sep s) -> contains c w = false.
Proof.
  revert w. induction s as [|a rest IH]; simpl; intros w Hc Hin.
  - destruct Hin as [<-|[]]. reflexivity.
  - apply orb_false_iff in Hc as [Ha Hrest].
    destruct (N.eqb a sep).
    + destruct Hin as [<-|Hin]; [reflexivity|auto].
    + destruct (split sep rest) as [|w0 ws] eqn:S.
      * destruct Hin as [<-|[]]. simpl. now rewrite Ha.
      * destruct Hin as [<-|Hin].
        -- simpl. rewrite Ha. simpl. apply IH; [assumption|now left].
        -- apply IH; [assumption|now right].
Qed.

(** Splitting a string that does not contain the separator returns it. *)
Lemma split_free (sep : char) (s : str) :
  contains sep s = false -> split sep s = [s].
Proof.
  induction s as [|c rest IH]; simpl; intros H; [reflexivity|].
  apply orb_false_iff in H as [Hc Hrest].
  rewrite N.eqb_sym, Hc. now rewrite (IH Hrest).
Qed.

Lemma join_singleton (sep x : str) : join sep [x] = x.
Proof. reflexivity. Qed.

Lemma fold_left_invariant {A B : Type} (f : A -> B -> A) (P : A -> Prop)
    (l : list B) (a : A) :
  P a -> (forall a' x, In x l -> P a' -> P (f a' x)) -> P (fold_left f l a).
Proof.
  revert a. induction l as [|x l IH]; simpl; intros a Ha Hstep; [exact Ha|].
  apply IH.
  - apply Hstep; [now left|exact Ha].
  - intros a' y Hy. apply Hstep. now right.
Qed.

End SplitJoin.

(** *** The length invariant of the two loops *)

Lemma words_of_free (text w : str) :
  In w (words_of text) ->
  contains SPACE w = false /\ contains NEWLINE w = false.
Proof.
  unfold words_of. rewrite in_flat_map. intros (line & Hline & Hw). split.
  - eapply split_pieces_free; eassumption.
  - eapply split_pieces_keep_free; [|eassumption].
    eapply split_pieces_free; eassumption.
Qed.

Section LengthInvariant.

Variable max_chars : Z.
Variable text : str.

Lemma word_step_inv (st : acc) (word : str) :
  In word (words_of text) ->
  word_inv max_chars text st ->
  word_inv max_chars text (word_step max_chars st word).
Proof.
  destruct st as [messages cl]. unfold word_inv, word_step. simpl.
  intros Hw [Hm Hcl].
  destruct cl as [|w0 cl'].
  - simpl. destruct (Z.leb_spec (len word) max_chars) as [Hle|Hgt]; simpl.
    + split; [assumption|]. now left.
    + split; [assumption|]. right. split; [lia|assumption].
  - destruct (Z.leb_spec (len (join [SPACE] ((w0 :: cl') ++ [word]))) max_chars)
      as [Hle|Hgt].
    + split; [exact Hm|].
      change (snd (messages, (w0 :: cl') ++ [word])) with ((w0 :: cl') ++ [word]).
      simpl app at 1. cbv iota. left. exact Hle.
    + simpl. split.
      * apply Forall_app. split; [assumption|]. constructor; [exact Hcl|constructor].
      * destruct (Z.le_gt_cases (len word) max_chars) as [H|H];
          [now left|right; split; [lia|assumption]].
Qed.

Lemma word_loop_inv (line : str) (messages : list str) :
  In line (split NEWLINE text) ->
  Forall (admissible max_chars text) messages ->
  word_inv max_chars text (fold_left (word_step max_chars) (split SPACE line) (messages, [])).
Proof.
  intros Hline Hm. apply fold_left_invariant.
  - split; [exact Hm|exact I].
  - intros st w Hw. apply word_step_inv.
    unfold words_of. apply in_flat_map. exists line. now split.
Qed.

Lemma line_step_inv (st : acc) (line : str) :
  In line (split NEWLINE text) ->
  line_inv max_chars text st ->
  line_inv max_chars text (line_step max_chars st line).
Proof.
  destruct st as [messages cm]. unfold line_inv, line_step.
  cbn [fst snd]. intros Hline [Hm Hcm].
  set (test := match cm with [] => line | _ :: _ => join [NEWLINE] (cm ++ [line]) end).
  destruct (Z.leb_spec (len test) max_chars) as [Hle|Hgt].
  - cbn [fst snd]. split; [exact Hm|].
    destruct cm as [|l0 cm']; simpl app; cbv iota; left; exact Hle.
  - assert (Hm1 : Forall (admissible max_chars text)
               match cm with [] => messages | _ :: _ => messages ++ [join [NEWLINE] cm] end).
    { destruct cm; [exact Hm|]. apply Forall_app. split; [exact Hm|]. now constructor. }
    destruct (Z.gtb_spec (len line) max_chars) as [Hbig|Hsmall].
    + pose proof (word_loop_inv line _ Hline Hm1) as Hw.
      destruct (fold_left _ _ _) as [messages2 cl]. destruct Hw as [Hm2 Hcl].
      cbn [fst snd] in *. destruct cl as [|w cl']; cbn [fst snd].
      * split; [exact Hm2|exact Hcm].
      * split; [exact Hm2|]. rewrite join_singleton. exact Hcl.
    + cbn [fst snd]. split; [exact Hm1|]. rewrite join_singleton. left. lia.
Qed.

(** Every message returned by [split_message] is admissible. *)
Lemma split_message_admissible (c : str) :
  In c (split_message text max_chars) -> admissible max_chars text c.
Proof.
  unfold split_message.
  destruct (Z.leb_spec (len text) max_chars) as [Hle|Hgt].
  - intros [<-|[]]. now left.
  - assert (Hinv : line_inv max_chars text
                     (fold_left (line_step max_chars) (split NEWLINE text) ([], []))).
    { apply fold_left_invariant.
      - split; [constructor|exact I].
      - intros st l Hl. now apply line_step_inv. }
    destruct (fold_left _ _ _) as [messages cm]. destruct Hinv as [Hm Hcm].
    cbn [fst snd] in *. rewrite List.Forall_forall in Hm.
    destruct cm as [|l0 cm']; [apply Hm|].
    intros Hin. apply in_app_or in Hin as [Hin|[<-|[]]]; [now apply Hm|exact Hcm].
Qed.

End LengthInvariant.

(** *** Re-splitting a message *)

(** A string without space and newline that is too long comes back as it
    is: one line, one word, one message. *)
Lemma split_message_big_token (w : str) (max_chars : Z) :
  contains SPACE w = false -> contains NEWLINE w = false ->
  max_chars < len w -> split_message w max_chars = [w].
Proof.
  intros Hsp Hnl Hbig. unfold split_message.
  destruct (Z.leb_spec (len w) max_chars) as [Hle|_]; [lia|].
  rewrite (split_free _ _ Hnl). cbn [fold_left]. unfold line_step.
  destruct (Z.leb_spec (len w) max_chars) as [Hle|_]; [lia|].
  destruct (Z.gtb_spec (len w) max_chars) as [_|Hle]; [|lia].
  rewrite (split_free _ _ Hsp). cbn [fold_left]. unfold word_step.
  destruct (Z.leb_spec (len w) max_chars) as [Hle|_]; [lia|].
  reflexivity.
Qed.

Lemma split_message_fits (text : str) (max_chars : Z) :
  len text <= max_chars -> split_message text max_chars = [text].
Proof.
  intros H. unfold split_message.
  destruct (Z.leb_spec (len text) max_chars); [reflexivity|lia].
Qed.

(** *** The result is never the empty list *)

Lemma word_step_acc_nonempty (max_chars : Z) (st : acc) (word : str) :
  snd (word_step max_chars st word) <> [].
Proof.
  destruct st as [messages cl]. unfold word_step.
  destruct (_ <=? _); cbn [snd]; [|discriminate].
  destruct cl; discriminate.
Qed.

Lemma fold_left_last_step {A B : Type} (f : A -> B -> A) (P : A -> Prop)
    (l : list B) (a : A) :
  l <> [] -> (forall a' x, P (f a' x)) -> P (fold_left f l a).
Proof.
  intros Hl Hstep. destruct l as [|x l] using rev_ind; [congruence|].
  rewrite fold_left_app. apply Hstep.
Qed.

Lemma line_step_acc_nonempty (max_chars : Z) (st : acc) (line : str) :
  snd (line_step max_chars st line) <> [].
Proof.
  destruct st as [messages cm]. unfold line_step.
  destruct (_ <=? _); cbn [snd]; [destruct cm; discriminate|].
  destruct (_ >? _); cbn [snd]; [|discriminate].
  pose proof (fold_left_last_step (word_step max_chars) (fun st => snd st <> [])
                (split SPACE line)
                (match cm with [] => messages | _ :: _ => messages ++ [join [NEWLINE] cm] end, [])
                (split_not_nil _ _) (word_step_acc_nonempty max_chars)) as H.
  destruct (fold_left _ _ _) as [m2 cl]. cbn [snd] in *.
  destruct cl; [congruence|discriminate].
Qed.

Lemma split_message_not_nil (text : str) (max_chars : Z) :
  split_message text max_chars <> [].
Proof.
  unfold split_message. destruct (_ <=? _); [discriminate|].
  pose proof (fold_left_last_step (line_step max_chars) (fun st => snd st <> [])
                (split NEWLINE text) ([], [])
                (split_not_nil _ _) (line_step_acc_nonempty max_chars)) as H.
  destruct (fold_left _ _ _) as [messages cm]. cbn [snd] in *.
  destruct cm; [congruence|]. destruct messages; discriminate.
Qed.

(** *** commands.py splits exactly as the other scripts *)

Lemma fold_left_pointwise {A B : Type} (f g : A -> B -> A) (l : list B) (a : A) :
  (forall a' x, f a' x = g a' x) -> fold_left f l a = fold_left g l a.
Proof.
  intros Hfg. revert a. induction l as [|x l IH]; simpl; intros a; [reflexivity|].
  now rewrite Hfg, IH.
Qed.

Lemma word_step_cmd_eq (max_chars : Z) (st : acc) (word : str) :
  word_step_cmd max_chars st word = word_step max_chars st word.
Proof. destruct st as [messages [|w cl]]; reflexivity. Qed.

Lemma line_step_cmd_eq (max_chars : Z) (st : acc) (line : str) :
  line_step_cmd max_chars st line = line_step max_chars st line.
Proof.
  destruct st as [messages cm]. unfold line_step_cmd, line_step.
  rewrite (fold_left_pointwise _ _ _ _ (word_step_cmd_eq max_chars)).
  destruct cm; reflexivity.
Qed.

Lemma split_message_cmd_eq (text : str) (max_chars : Z) :
  split_message_cmd text max_chars = split_message text max_chars.
Proof.
  unfold split_message_cmd, split_message.
  now rewrite (fold_left_pointwise _ _ _ _ (line_step_cmd_eq max_chars)).
Qed.

(** ** Properties of the paginator *)

(** C1, as stated, fails: words are cut at the space character only, so
    a word holding a tab is not whitespace-free and is still emitted as
    one oversized message. With [max_chars = 3] the text [ab<TAB>cd] comes
    back whole: 5 characters, neither within the limit nor free of
    whitespace. *)
Lemma split_message_tab_word_oversized :
  let text := lit "ab" ++ [TAB] ++ lit "cd" in
  0 < 3 /\
  In text (split_message text 3) /\
  In text (split_message_cmd text 3) /\
  ~ (len text <= 3 \/ (whitespace_free text = true /\ 3 < len text)).
Proof.
  cbv zeta. split; [lia|]. split; [now left|]. split; [now left|].
  intros [H|[H _]]; vm_compute in H; congruence.
Qed.

(** C1, amended: for every text and every [max_chars > 0], every message
    returned by [split_message] (in all four scripts) has at most
    [max_chars] characters, except when it is a single word of the text,
    that is a piece without space and without newline of one of its
    lines, whose own length exceeds [max_chars]. *)
Theorem split_message_length_bound (text : str) (max_chars : Z) (c : str) :
  0 < max_chars ->
  In c (split_message text max_chars) \/ In c (split_message_cmd text max_chars) ->
  len c <= max_chars \/
  (max_chars < len c /\ In c (words_of text) /\
   contains SPACE c = false /\ contains NEWLINE c = false).
Proof.
  intros _ Hin. rewrite split_message_cmd_eq in Hin.
  assert (Hc : In c (split_message text max_chars)) by tauto.
  apply split_message_admissible in Hc as [Hle|[Hbig Hw]]; [now left|right].
  split; [exact Hbig|]. split; [exact Hw|]. exact (words_of_free _ _ Hw).
Qed.

Lemma split_message_length_bound_witness :
  let text := lit "ab cdefg hi" in
  let c := lit "cdefg" in
  (0 < 3 /\ (In c (split_message text 3) \/ In c (split_message_cmd text 3))) /\
  (len c <= 3 \/
   (3 < len c /\ In c (words_of text) /\
    contains SPACE c = false /\ contains NEWLINE c = false)).
Proof.
  cbv zeta.
  assert (H0 : 0 < 3) by lia.
  assert (Hin : In (lit "cdefg") (split_message (lit "ab cdefg hi") 3) \/
                In (lit "cdefg") (split_message_cmd (lit "ab cdefg hi") 3)).
  { left. vm_compute. right. left. reflexivity. }
  split; [split; assumption|].
  exact (split_message_length_bound (lit "ab cdefg hi") 3 (lit "cdefg") H0 Hin).
Defined.

(** C2: the result is never the empty list, but it can hold the empty
    string. The tests [if current_message] and [if current_line] keep an
    empty accumulator from being emitted; an accumulator that holds only
    an empty line (or an empty word) passes them and is emitted as an
    empty message. *)
Theorem split_message_empty_chunk :
  split_message (lit "ab" ++ [NEWLINE; NEWLINE] ++ lit "cd") 2
    = [lit "ab"; []; lit "cd"] /\
  split_message (repeat 97%N 199 ++ [NEWLINE; NEWLINE] ++ repeat 98%N 199) 199
    = [repeat 97%N 199; []; repeat 98%N 199] /\
  split_message (lit "abcd  efgh") 4 = [lit "abcd"; []; lit "efgh"] /\
  split_message (NEWLINE :: repeat 97%N 120 ++ [SPACE] ++ repeat 98%N 120) 199
    = [[]; repeat 97%N 120; repeat 98%N 120].
Proof. repeat split; vm_compute; reflexivity. Qed.

(** C4: for every text and every [max_chars > 0], each message [c] of
    [split_message text max_chars] is a fixed point of the paginator:
    [split_message c max_chars] is the one-element list [[c]]. *)
Theorem split_message_idempotent (text : str) (max_chars : Z) (c : str) :
  0 < max_chars ->
  In c (split_message text max_chars) ->
  split_message c max_chars = [c].
Proof.
  intros _ Hin.
  apply split_message_admissible in Hin as [Hle|[Hbig Hw]].
  - now apply split_message_fits.
  - apply words_of_free in Hw as [Hsp Hnl].
    now apply split_message_big_token.
Qed.

Lemma split_message_idempotent_witness :
  let text := lit "ab cdefg hi" in
  let c := lit "cdefg" in
  (0 < 3 /\ In c (split_message text 3)) /\ split_message c 3 = [c].
Proof.
  cbv zeta.
  assert (H0 : 0 < 3) by lia.
  assert (Hin : In (lit "cdefg") (split_message (lit "ab cdefg hi") 3)).
  { vm_compute. right. left. reflexivity. }
  split; [split; assumption|].
  exact (split_message_idempotent (lit "ab cdefg hi") 3 (lit "cdefg") H0 Hin).
Defined.

(** ** Properties of the paged command list *)

Lemma len_app (a b : str) : len (a ++ b) = len a + len b.
Proof. unfold len. rewrite length_app. lia. Qed.

(** A message whose header line fits with it is numbered in place. *)
Lemma number_messages_fits (total i : nat) (msg : str) (rest : list str) :
  len (page_header i total) + 1 + len msg <= 199 ->
  number_messages total i (msg :: rest)
    = (page_header i total ++ [NEWLINE] ++ msg) :: number_messages total (S i) rest.
Proof.
  intros Hfit. cbn [number_messages].
  destruct (Z.gtb_spec (len (page_header i total ++ [NEWLINE] ++ msg)) 199) as [Hbig|_];
    [|reflexivity].
  rewrite !len_app in Hbig. change (len [NEWLINE]) with 1 in Hbig. lia.
Qed.

(** C5, as stated, fails. For the shipped registry the body splits into
    3 messages and the first final message begins with
    [Available Commands: Page 1 of 3 (Msg 1/3)], not with
    [Page 1 of 3 (Msg 1/3)]. For a registry whose only trigger has 200
    characters the body splits into 3 messages too, the second does not
    fit under its header and is split again: the final list has 4
    messages, the third is the bare trigger, without header and longer
    than 199 characters. *)
Lemma get_commands_list_three_pages_counterexample :
  (length (split_message_cmd (commands_text COMMANDS) (199 - 50)) = 3%nat /\
   exists c rest,
     get_commands_list COMMANDS = Messages (c :: rest) /\
     startswith (lit "Page 1 of 3 (Msg 1/3)") c = false) /\
  (length (split_message_cmd (commands_text long_trigger_registry) (199 - 50)) = 3%nat /\
   exists c1 c2 c3 c4,
     get_commands_list long_trigger_registry = Messages [c1; c2; c3; c4] /\
     c3 = repeat 120%N 200 /\
     startswith (lit "Page 3 of 3 (Msg 3/3)") c3 = false /\
     startswith (page_header 3 3) c3 = false /\
     ~ len c3 <= 199).
Proof.
  split.
  - split; [vm_compute; reflexivity|].
    eexists. eexists. split; [vm_compute; reflexivity|]. vm_compute. reflexivity.
  - split; [vm_compute; reflexivity|].
    do 4 eexists. split; [vm_compute; reflexivity|].
    split; [vm_compute; reflexivity|].
    split; [vm_compute; reflexivity|].
    split; [vm_compute; reflexivity|].
    vm_compute. intros H. apply H. reflexivity.
Qed.

(** C5, amended: in paged mode, whenever the command-list body splits
    into 3 messages under the reduced budget (199 - 50) and each of them
    still fits in 199 characters together with its header line (it has at
    most 157 characters), the final list has exactly 3 messages, message
    [i] is [Available Commands: Page i of 3 (Msg i/3)], a newline and the
    [i]-th body message, and no final message exceeds 199 characters. *)
Theorem get_commands_list_three_pages (commands : registry) (b1 b2 b3 : str) :
  split_message_cmd (commands_text commands) (199 - 50) = [b1; b2; b3] ->
  len b1 <= 157 -> len b2 <= 157 -> len b3 <= 157 ->
  let paged :=
    [ lit "Available Commands: Page 1 of 3 (Msg 1/3)" ++ [NEWLINE] ++ b1;
      lit "Available Commands: Page 2 of 3 (Msg 2/3)" ++ [NEWLINE] ++ b2;
      lit "Available Commands: Page 3 of 3 (Msg 3/3)" ++ [NEWLINE] ++ b3 ] in
  get_commands_list commands = Messages paged /\
  Forall (fun c => len c <= 199) paged.
Proof.
  intros Hsplit H1 H2 H3 paged. subst paged. split.
  - unfold get_commands_list. rewrite Hsplit.
    change (len_list [b1; b2; b3] >? 1) with true. cbv iota.
    change (length [b1; b2; b3]) with 3%nat.
    assert (Hh : forall i, (1 <= i <= 3)%nat -> len (page_header i 3) = 41).
    { intros i Hi.
      destruct i as [|[|[|[|i]]]]; try lia; vm_compute; reflexivity. }
    rewrite !number_messages_fits by (rewrite Hh; lia).
    reflexivity.
  - repeat constructor; rewrite !len_app;
      change (len [NEWLINE]) with 1;
      match goal with
      | |- context [len (lit ?s)] =>
          let n := eval vm_compute in (len (lit s)) in
          change (len (lit s)) with n
      end; lia.
Qed.

(** The shipped registry is such a case. *)
Lemma get_commands_list_three_pages_witness :
  exists b1 b2 b3,
    (split_message_cmd (commands_text COMMANDS) (199 - 50) = [b1; b2; b3] /\
     len b1 <= 157 /\ len b2 <= 157 /\ len b3 <= 157) /\
    get_commands_list COMMANDS
      = Messages
          [ lit "Available Commands: Page 1 of 3 (Msg 1/3)" ++ [NEWLINE] ++ b1;
            lit "Available Commands: Page 2 of 3 (Msg 2/3)" ++ [NEWLINE] ++ b2;
            lit "Available Commands: Page 3 of 3 (Msg 3/3)" ++ [NEWLINE] ++ b3 ].
Proof.
  let chunks := eval vm_compute in
      (split_message_cmd (commands_text COMMANDS) (199 - 50)) in
  assert (Hs : split_message_cmd (commands_text COMMANDS) (199 - 50) = chunks)
    by (vm_compute; reflexivity).
  match type of Hs with
  | _ = [?b1; ?b2; ?b3] =>
      assert (H1 : len b1 <= 157) by (vm_compute; discriminate);
      assert (H2 : len b2 <= 157) by (vm_compute; discriminate);
      assert (H3 : len b3 <= 157) by (vm_compute; discriminate);
      exists b1, b2, b3;
      split; [repeat split; assumption|];
      exact (proj1 (get_commands_list_three_pages COMMANDS b1 b2 b3 Hs H1 H2 H3))
  end.
Defined.

(** ** Properties of the resolver *)

Lemma startswith_app (p s : str) :
  startswith p s = true -> exists r, s = p ++ r.
Proof.
  revert s. induction p as [|a p IH]; intros s H.
  - exists s. reflexivity.
  - destruct s as [|b s]; [discriminate|]. simpl in H.
    apply andb_true_iff in H as [Hab Hps]. apply N.eqb_eq in Hab as ->.
    destruct (IH s Hps) as [r ->]. exists r. reflexivity.
Qed.

Section ResolverProperties.

Variable lower : str -> str.
Variable is_word : char -> bool.

Lemma nonempty_true (s : str) : s <> [] -> nonempty s = true.
Proof. destruct s; [congruence|reflexivity]. Qed.

Lemma nonempty_false (s : str) : s = [] -> nonempty s = false.
Proof. now intros ->. Qed.

(** A pattern with a placeholder contains an opening brace, so both
    branches of ai.py compute the same prefix. *)
Lemma re_search_param_brace (s : str) :
  re_search_param is_word s = true -> contains LBRACE s = true.
Proof.
  induction s as [|c rest IH]; simpl; [discriminate|].
  intros H. apply orb_true_iff in H as [H|H].
  - apply andb_true_iff in H as [Hc _]. apply N.eqb_eq in Hc as ->. reflexivity.
  - rewrite (IH H). apply orb_true_r.
Qed.

Lemma literal_prefix_placeholder (s : str) :
  re_search_param is_word s = true -> literal_prefix s = prefix_before_brace s.
Proof. intros H. unfold literal_prefix. now rewrite (re_search_param_brace s H). Qed.

(** The host parameter is kept when the guard of the first block fails. *)
Lemma ai_resolve_trusted (hostParam rawMessage triggerPattern : str) :
  strip hostParam <> [] ->
  3 <= len (strip hostParam) \/ contains SPACE rawMessage = false ->
  ai_resolve lower is_word hostParam rawMessage triggerPattern = strip hostParam.
Proof.
  intros Hne Hlong. unfold ai_resolve. rewrite (nonempty_true _ Hne). cbn [negb orb].
  destruct Hlong as [Hlen|Hsp].
  - destruct (Z.ltb_spec (len (strip hostParam)) 3); [lia|reflexivity].
  - rewrite Hsp, andb_false_r. reflexivity.
Qed.

Lemma sunrise_resolve_trusted (hostParam rawMessage triggerPattern : str) :
  strip hostParam <> [] ->
  2 <= len (strip hostParam) \/ contains SPACE rawMessage = false ->
  sunrise_resolve lower is_word hostParam rawMessage triggerPattern = strip hostParam.
Proof.
  intros Hne Hlong. unfold sunrise_resolve. rewrite (nonempty_true _ Hne). cbn [negb orb].
  destruct Hlong as [Hlen|Hsp].
  - destruct (Z.ltb_spec (len (strip hostParam)) 2); [lia|reflexivity].
  - rewrite Hsp, andb_false_r. reflexivity.
Qed.

(** With a trigger pattern whose prefix does not start the message,
    ai.py leaves [question] as it was; the known prefixes are not tried. *)
Lemma ai_resolve_trigger_mismatch (hostParam rawMessage triggerPattern : str) :
  strip triggerPattern <> [] ->
  startswith (lower (literal_prefix (strip triggerPattern)))
    (lower (strip rawMessage)) = false ->
  ai_resolve lower is_word hostParam rawMessage triggerPattern = strip hostParam.
Proof.
  intros Htrig Hmis. unfold ai_resolve.
  destruct (negb _ || _); [|reflexivity].
  rewrite (nonempty_true _ Htrig), andb_true_r.
  destruct (nonempty (strip rawMessage)); [|reflexivity].
  destruct (re_search_param is_word (strip triggerPattern)) eqn:Hre.
  - rewrite <- (literal_prefix_placeholder _ Hre), Hmis. reflexivity.
  - rewrite Hmis. reflexivity.
Qed.

(** Without a trigger pattern, ai.py runs the loop over the known
    prefixes. *)
Lemma ai_resolve_no_trigger (hostParam rawMessage triggerPattern : str) :
  strip hostParam = [] \/
    (len (strip hostParam) < 3 /\ contains SPACE rawMessage = true) ->
  strip rawMessage <> [] ->
  strip triggerPattern = [] ->
  ai_resolve lower is_word hostParam rawMessage triggerPattern
    = known_prefix_loop known_prefixes (strip rawMessage)
        (lower (strip rawMessage)) (strip hostParam).
Proof.
  intros Hatt Hraw Htrig. unfold ai_resolve.
  assert (Hguard : negb (nonempty (strip hostParam))
                   || (len (strip hostParam) <? 3) && contains SPACE rawMessage = true).
  { destruct Hatt as [->|[Hlen ->]]; [reflexivity|].
    destruct (Z.ltb_spec (len (strip hostParam)) 3); [|lia]. apply orb_true_r. }
  rewrite Hguard, Htrig, (nonempty_true _ Hraw). reflexivity.
Qed.

(** At most one known prefix starts a given string, so the first match
    of the loop is the only one. *)
Lemma known_prefix_loop_match (prefix original_message message_lower question : str) :
  In prefix known_prefixes ->
  startswith prefix message_lower = true ->
  known_prefix_loop known_prefixes original_message message_lower question
    = extract_after prefix original_message.
Proof.
  intros Hin Hst. destruct (startswith_app _ _ Hst) as [r ->].
  unfold known_prefixes in *. cbn [known_prefix_loop].
  destruct Hin as [<-|[<-|[<-|[]]]]; reflexivity.
Qed.

Lemma known_prefix_loop_no_match (original_message message_lower question : str) :
  (forall prefix, In prefix known_prefixes -> startswith prefix message_lower = false) ->
  known_prefix_loop known_prefixes original_message message_lower question = question.
Proof.
  intros Hno. unfold known_prefixes in *. cbn [known_prefix_loop].
  rewrite !Hno; [reflexivity|..]; simpl; auto.
Qed.

End ResolverProperties.

Lemma sunrise_resolve_unmatched (lower : str -> str) (is_word : char -> bool)
    (hostParam rawMessage triggerPattern : str) :
  (re_search_param is_word (strip triggerPattern) = true ->
   startswith (lower (prefix_before_brace (strip triggerPattern)))
     (lower (strip rawMessage)) = false) ->
  sunrise_resolve lower is_word hostParam rawMessage triggerPattern = strip hostParam.
Proof.
  intros Hmis. unfold sunrise_resolve.
  destruct (negb _ || _); [|reflexivity].
  destruct (nonempty (strip rawMessage) && nonempty (strip triggerPattern)); [|reflexivity].
  destruct (re_search_param is_word (strip triggerPattern)); [|reflexivity].
  now rewrite Hmis.
Qed.

(** C3, as stated, fails for ai.py, whose guard is [len(question) < 3]:
    a host parameter of two characters is replaced when the message
    contains a space. *)
Lemma ai_resolve_two_char_param_replaced :
  let hostParam := lit "hi" in
  let rawMessage := lit "ask hi there" in
  let triggerPattern := lit "ask {question}" in
  strip hostParam <> [] /\
  (2 <= len (strip hostParam) \/ contains SPACE rawMessage = false) /\
  ai_resolve lower_ascii word_ascii hostParam rawMessage triggerPattern = lit "hi there" /\
  ai_resolve lower_ascii word_ascii hostParam rawMessage triggerPattern <> strip hostParam.
Proof.
  cbv zeta. split; [vm_compute; discriminate|].
  split; [left; vm_compute; discriminate|].
  split; [vm_compute; reflexivity|]. vm_compute. discriminate.
Qed.

(** C3, amended: if the trimmed host parameter is non-empty and either
    its length reaches the trust threshold of the script (2 in
    sunrise.py, 3 in ai.py) or the raw message contains no space, the
    resolver returns the trimmed host parameter, whatever the raw message
    and the trigger pattern are. *)
Theorem resolve_trusts_host_param (lower : str -> str) (is_word : char -> bool)
    (hostParam rawMessage triggerPattern : str) :
  strip hostParam <> [] ->
  (2 <= len (strip hostParam) \/ contains SPACE rawMessage = false ->
   sunrise_resolve lower is_word hostParam rawMessage triggerPattern = strip hostParam) /\
  (3 <= len (strip hostParam) \/ contains SPACE rawMessage = false ->
   ai_resolve lower is_word hostParam rawMessage triggerPattern = strip hostParam).
Proof.
  intros Hne. split; intros Hlong.
  - now apply sunrise_resolve_trusted.
  - now apply ai_resolve_trusted.
Qed.

Lemma resolve_trusts_host_param_witness :
  let hostParam := lit " Explain LoRa basics " in
  let rawMessage := lit "ask something else" in
  let triggerPattern := lit "ask {question}" in
  (strip hostParam <> [] /\
   (2 <= len (strip hostParam) \/ contains SPACE rawMessage = false) /\
   (3 <= len (strip hostParam) \/ contains SPACE rawMessage = false)) /\
  sunrise_resolve lower_ascii word_ascii hostParam rawMessage triggerPattern
    = lit "Explain LoRa basics" /\
  ai_resolve lower_ascii word_ascii hostParam rawMessage triggerPattern
    = lit "Explain LoRa basics".
Proof.
  cbv zeta.
  assert (Hne : strip (lit " Explain LoRa basics ") <> []) by (vm_compute; discriminate).
  assert (H2 : 2 <= len (strip (lit " Explain LoRa basics ")) \/
               contains SPACE (lit "ask something else") = false)
    by (left; vm_compute; discriminate).
  assert (H3 : 3 <= len (strip (lit " Explain LoRa basics ")) \/
               contains SPACE (lit "ask something else") = false)
    by (left; vm_compute; discriminate).
  split; [repeat split; assumption|].
  destruct (resolve_trusts_host_param lower_ascii word_ascii
              (lit " Explain LoRa basics ") (lit "ask something else")
              (lit "ask {question}") Hne) as [Hs Ha].
  split; [exact (Hs H2)|exact (Ha H3)].
Defined.

(** C6: with trigger pattern [ask {question}], raw message
    [ask "What is mesh?"] and an empty host parameter, ai.py resolves the
    question [What is mesh?]. The prefix is compared without regard to
    case, the remainder is trimmed, and one layer of matching double or
    single quotes is removed. *)
Theorem ai_resolve_quoted_question :
  let quoted := [DQUOTE] ++ lit "What is mesh?" ++ [DQUOTE] in
  let trigger := lit "ask {question}" in
  ai_resolve lower_ascii word_ascii [] (lit "ask " ++ quoted) trigger
    = lit "What is mesh?" /\
  ai_main_question lower_ascii word_ascii
    (<["MESSAGE"%string := lit "ask " ++ quoted]>
       (<["TRIGGER"%string := trigger]> ∅))
    = lit "What is mesh?" /\
  ai_resolve lower_ascii word_ascii [] (lit "ASK   " ++ quoted ++ lit "  ") trigger
    = lit "What is mesh?" /\
  ai_resolve lower_ascii word_ascii [] (lit "ask 'What is mesh?'") trigger
    = lit "What is mesh?" /\
  ai_resolve lower_ascii word_ascii [] (lit "ask " ++ [DQUOTE] ++ quoted ++ [DQUOTE]) trigger
    = quoted.
Proof. cbv zeta. repeat split; vm_compute; reflexivity. Qed.

(** C7, as stated, fails: the known prefixes are tried only when no
    trigger pattern is set. With trigger [chat {message}] and message
    [ask hello] the trigger prefix does not match, the known prefix
    [ask ] does, and the question stays empty. *)
Lemma ai_resolve_no_fallback_with_trigger :
  let rawMessage := lit "ask hello" in
  let triggerPattern := lit "chat {message}" in
  startswith (lower_ascii (prefix_before_brace triggerPattern))
    (lower_ascii rawMessage) = false /\
  startswith (lit "ask ") (lower_ascii rawMessage) = true /\
  extract_after (lit "ask ") rawMessage = lit "hello" /\
  ai_resolve lower_ascii word_ascii [] rawMessage triggerPattern = [] /\
  ai_resolve lower_ascii word_ascii [] rawMessage triggerPattern <> lit "hello".
Proof.
  cbv zeta. repeat split; try (vm_compute; reflexivity). vm_compute. discriminate.
Qed.

(** C7, amended: when ai.py attempts the extraction and no trigger
    pattern is set, it tests the trimmed raw message against the fixed
    prefixes [ask ], [ai ], [chat ] and, for the prefix that matches
    without regard to case, returns the remainder of the raw message
    after that prefix, trimmed and with one layer of quotes removed.
    When a trigger pattern is set and its prefix does not match, the
    prefixes are not tried and the trimmed host parameter is returned. *)
Theorem ai_resolve_known_prefix_fallback (lower : str -> str) (is_word : char -> bool)
    (hostParam rawMessage triggerPattern : str) :
  strip hostParam = [] \/
    (len (strip hostParam) < 3 /\ contains SPACE rawMessage = true) ->
  strip rawMessage <> [] ->
  (strip triggerPattern = [] ->
   forall prefix, In prefix known_prefixes ->
     startswith prefix (lower (strip rawMessage)) = true ->
     ai_resolve lower is_word hostParam rawMessage triggerPattern
       = strip_quotes (strip (slice_from (length prefix) (strip rawMessage)))) /\
  (strip triggerPattern <> [] ->
   startswith (lower (literal_prefix (strip triggerPattern)))
     (lower (strip rawMessage)) = false ->
   ai_resolve lower is_word hostParam rawMessage triggerPattern = strip hostParam).
Proof.
  intros Hatt Hraw. split.
  - intros Htrig prefix Hin Hst.
    rewrite (ai_resolve_no_trigger lower is_word _ _ _ Hatt Hraw Htrig).
    now apply known_prefix_loop_match.
  - intros Htrig Hmis. now apply ai_resolve_trigger_mismatch.
Qed.

Lemma ai_resolve_known_prefix_fallback_witness :
  let rawMessage := lit "AI 'hello mesh' " in
  (strip ([] : str) = [] /\ strip rawMessage <> [] /\
   In (lit "ai ") known_prefixes /\
   startswith (lit "ai ") (lower_ascii (strip rawMessage)) = true) /\
  ai_resolve lower_ascii word_ascii [] rawMessage [] = lit "hello mesh" /\
  ((strip (lit "chat {message}") <> [] /\
    startswith (lower_ascii (literal_prefix (strip (lit "chat {message}"))))
      (lower_ascii (strip rawMessage)) = false) /\
   ai_resolve lower_ascii word_ascii [] rawMessage (lit "chat {message}") = []).
Proof.
  cbv zeta.
  assert (Hatt : strip ([] : str) = [] \/
                 (len (strip ([] : str)) < 3 /\
                  contains SPACE (lit "AI 'hello mesh' ") = true))
    by (left; reflexivity).
  assert (Hraw : strip (lit "AI 'hello mesh' ") <> []) by (vm_compute; discriminate).
  assert (Hin : In (lit "ai ") known_prefixes) by (right; left; reflexivity).
  assert (Hst : startswith (lit "ai ") (lower_ascii (strip (lit "AI 'hello mesh' "))) = true)
    by (vm_compute; reflexivity).
  assert (Htrig : strip (lit "chat {message}") <> []) by (vm_compute; discriminate).
  assert (Hmis : startswith (lower_ascii (literal_prefix (strip (lit "chat {message}"))))
                   (lower_ascii (strip (lit "AI 'hello mesh' "))) = false)
    by (vm_compute; reflexivity).
  split; [repeat split; solve [assumption|reflexivity]|].
  split.
  - exact (proj1 (ai_resolve_known_prefix_fallback lower_ascii word_ascii
                    [] (lit "AI 'hello mesh' ") [] Hatt Hraw)
             eq_refl (lit "ai ") Hin Hst).
  - split; [split; assumption|].
    exact (proj2 (ai_resolve_known_prefix_fallback lower_ascii word_ascii
                    [] (lit "AI 'hello mesh' ") (lit "chat {message}") Hatt Hraw)
             Htrig Hmis).
Defined.

(** C10: a non-empty trimmed host parameter survives a failed
    extraction. If the extraction is attempted (the parameter is shorter
    than the trust threshold and the raw message contains a space) and
    neither the trigger prefix nor, in ai.py without trigger pattern, a
    known prefix matches, the resolved argument is the trimmed host
    parameter. *)
Theorem resolve_keeps_unmatched_host_param (lower : str -> str) (is_word : char -> bool)
    (hostParam rawMessage triggerPattern : str) :
  strip hostParam <> [] ->
  contains SPACE rawMessage = true ->
  (len (strip hostParam) < 3 ->
   (strip triggerPattern <> [] ->
    startswith (lower (literal_prefix (strip triggerPattern)))
      (lower (strip rawMessage)) = false) ->
   (strip triggerPattern = [] ->
    forall prefix, In prefix known_prefixes ->
      startswith prefix (lower (strip rawMessage)) = false) ->
   ai_resolve lower is_word hostParam rawMessage triggerPattern = strip hostParam) /\
  (len (strip hostParam) < 2 ->
   (re_search_param is_word (strip triggerPattern) = true ->
    startswith (lower (prefix_before_brace (strip triggerPattern)))
      (lower (strip rawMessage)) = false) ->
   sunrise_resolve lower is_word hostParam rawMessage triggerPattern = strip hostParam).
Proof.
  intros Hne Hsp. split.
  - intros Hshort Htrigger Hknown.
    destruct (strip triggerPattern) as [|t0 tp] eqn:Etrig.
    + destruct (strip rawMessage) as [|r0 rm] eqn:Eraw.
      * unfold ai_resolve. rewrite Eraw, Etrig.
        destruct (negb _ || _); reflexivity.
      * rewrite (ai_resolve_no_trigger lower is_word hostParam rawMessage triggerPattern);
          [|right; split; assumption|rewrite Eraw; discriminate|exact Etrig].
        rewrite Eraw. apply known_prefix_loop_no_match.
        now apply Hknown.
    + apply ai_resolve_trigger_mismatch; rewrite Etrig; [discriminate|].
      now apply Htrigger.
  - intros Hshort Htrigger. now apply sunrise_resolve_unmatched.
Qed.

Lemma resolve_keeps_unmatched_host_param_witness :
  let hostParam := lit "x" in
  let rawMessage := lit "hello there" in
  (strip hostParam <> [] /\ contains SPACE rawMessage = true /\
   len (strip hostParam) < 3 /\ len (strip hostParam) < 2) /\
  ai_resolve lower_ascii word_ascii hostParam rawMessage (lit "ask {question}") = lit "x" /\
  ai_resolve lower_ascii word_ascii hostParam rawMessage [] = lit "x" /\
  sunrise_resolve lower_ascii word_ascii hostParam rawMessage (lit "sunrise {location}")
    = lit "x".
Proof.
  cbv zeta.
  assert (Hne : strip (lit "x") <> []) by (vm_compute; discriminate).
  assert (Hsp : contains SPACE (lit "hello there") = true) by (vm_compute; reflexivity).
  assert (H3 : len (strip (lit "x")) < 3) by (vm_compute; reflexivity).
  assert (H2 : len (strip (lit "x")) < 2) by (vm_compute; reflexivity).
  split; [repeat split; assumption|].
  split; [|split].
  - apply (proj1 (resolve_keeps_unmatched_host_param lower_ascii word_ascii
                    (lit "x") (lit "hello there") (lit "ask {question}") Hne Hsp) H3).
    + intros _. vm_compute. reflexivity.
    + intros H. vm_compute in H. discriminate.
  - apply (proj1 (resolve_keeps_unmatched_host_param lower_ascii word_ascii
                    (lit "x") (lit "hello there") [] Hne Hsp) H3).
    + intros H. exfalso. apply H. reflexivity.
    + intros _ prefix [<-|[<-|[<-|[]]]]; vm_compute; reflexivity.
  - apply (proj2 (resolve_keeps_unmatched_host_param lower_ascii word_ascii
                    (lit "x") (lit "hello there") (lit "sunrise {location}") Hne Hsp) H2).
    intros _. vm_compute. reflexivity.
Defined.

(** ** Properties of the envelope *)

Lemma build_output_text (s : str) :
  build_output (Text s) = {[ "response"%string := Text s ]}.
Proof. reflexivity. Qed.

Lemma build_output_messages (l : list str) :
  build_output (Messages l) = {[ "responses"%string := Messages l ]}.
Proof. reflexivity. Qed.

Lemma ensure_response_text (s : str) : s <> [] -> ensure_response (Text s) = Text s.
Proof. destruct s; [congruence|reflexivity]. Qed.

Lemma ensure_response_messages (l : list str) :
  1 < len_list l -> ensure_response (Messages l) = Messages l.
Proof. destruct l; [unfold len_list; simpl; lia|reflexivity]. Qed.

(** C8: the output key is determined by the shape of the reply. A
    single message, a plain non-empty string, gives a dict whose only
    key is [response], holding that string; a list of [n > 1] messages
    gives a dict whose only key is [responses], holding a list of
    exactly [n] entries, the messages themselves. *)
Theorem envelope_key_by_shape :
  (forall s : str, s <> [] ->
     let output := build_output (ensure_response (Text s)) in
     dom output = {[ "response"%string ]} /\
     output !! "response"%string = Some (Text s)) /\
  (forall l : list str, 1 < len_list l ->
     let output := build_output (ensure_response (Messages l)) in
     dom output = {[ "responses"%string ]} /\
     exists entries,
       output !! "responses"%string = Some (Messages entries) /\
       length entries = length l /\ entries = l).
Proof.
  split.
  - intros s Hs output. subst output.
    rewrite (ensure_response_text s Hs), build_output_text.
    split; [apply dom_singleton_L|apply lookup_singleton_eq].
  - intros l Hl output. subst output.
    rewrite (ensure_response_messages l Hl), build_output_messages.
    split; [apply dom_singleton_L|].
    exists l. split; [apply lookup_singleton_eq|]. split; reflexivity.
Qed.

Lemma envelope_key_by_shape_witness :
  let s := lit "Sunrise 06:12" in
  let l := [lit "part one"; lit "part two"; lit "part three"] in
  (s <> [] /\ 1 < len_list l) /\
  (dom (build_output (ensure_response (Text s))) = {[ "response"%string ]} /\
   build_output (ensure_response (Text s)) !! "response"%string = Some (Text s)) /\
  (dom (build_output (ensure_response (Messages l))) = {[ "responses"%string ]} /\
   exists entries,
     build_output (ensure_response (Messages l)) !! "responses"%string
       = Some (Messages entries) /\
     length entries = length l /\ entries = l).
Proof.
  cbv zeta.
  assert (Hs : lit "Sunrise 06:12" <> []) by (vm_compute; discriminate).
  assert (Hl : 1 < len_list [lit "part one"; lit "part two"; lit "part three"])
    by (vm_compute; reflexivity).
  split; [split; assumption|].
  split.
  - exact (proj1 envelope_key_by_shape (lit "Sunrise 06:12") Hs).
  - exact (proj2 envelope_key_by_shape
             [lit "part one"; lit "part two"; lit "part three"] Hl).
Defined.

(** ** Properties of the fun bot *)

(** C9: for a fixed calendar date the fun bot is deterministic. Two runs
    whose clocks read the same year, month and day, whatever the time of
    day, and that call the same content method return the same string:
    the constructor seeds the generator from the year and the day of the
    year only. *)
Theorem funbot_same_date_same_content (rng : Type) (seed : Z -> rng)
    (randbelow : rng -> nat -> nat * rng) (now1 now2 : datetime) (m : getter) :
  same_date now1 now2 ->
  run rng seed randbelow now1 m = run rng seed randbelow now2 m.
Proof.
  intros (Hy & Hm & Hd). unfold run, init, tm_yday.
  now rewrite Hy, Hm, Hd.
Qed.

Lemma funbot_same_date_same_content_witness :
  let morning := {| year := 2024; month := 3; day := 5;
                    hour := 8; minute := 0; second := 0; microsecond := 0 |} in
  let evening := {| year := 2024; month := 3; day := 5;
                    hour := 23; minute := 59; second := 30; microsecond := 17 |} in
  same_date morning evening /\
  run Z (fun n => n) counter_randbelow morning Joke
    = run Z (fun n => n) counter_randbelow evening Joke.
Proof.
  cbv zeta.
  assert (H : same_date
                {| year := 2024; month := 3; day := 5;
                   hour := 8; minute := 0; second := 0; microsecond := 0 |}
                {| year := 2024; month := 3; day := 5;
                   hour := 23; minute := 59; second := 30; microsecond := 17 |})
    by (repeat split).
  split; [exact H|].
  exact (funbot_same_date_same_content Z (fun n => n) counter_randbelow _ _ Joke H).
Defined.

(** * Further properties *)

(** ** The paginator keeps the text *)

(** [join] undoes [split]. *)
Lemma join_split (sep : char) (s : str) : join [sep] (split sep s) = s.
Proof.
  induction s as [|c rest IH]; [reflexivity|].
  cbn [split]. destruct (N.eqb_spec c sep) as [->|Hne].
  - pose proof (split_not_nil sep rest) as Hnn.
    destruct (split sep rest) as [|w ws] eqn:E; [congruence|].
    cbn [join]. cbn [join] in IH. now rewrite IH.
  - pose proof (split_not_nil sep rest) as Hnn.
    destruct (split sep rest) as [|w ws] eqn:E; [congruence|].
    cbn [join] in *. destruct ws as [|w' ws'].
    + now rewrite IH.
    + rewrite <- IH. reflexivity.
Qed.

Lemma letters_app (a b : str) : letters (a ++ b) = letters a ++ letters b.
Proof. apply List.filter_app. Qed.

Lemma letters_join (sep : char) (l : list str) :
  sep = SPACE \/ sep = NEWLINE ->
  letters (join [sep] l) = letters (List.concat l).
Proof.
  intros Hsep. induction l as [|x rest IH]; [reflexivity|].
  cbn [join List.concat]. destruct rest as [|y rest'].
  - cbn [List.concat]. now rewrite app_nil_r.
  - rewrite !letters_app, IH.
    assert (Hs : letters [sep] = []) by (destruct Hsep as [->| ->]; reflexivity).
    now rewrite Hs.
Qed.

Lemma concat_snoc (l : list str) (x : str) :
  List.concat (l ++ [x]) = List.concat l ++ x.
Proof. rewrite List.concat_app. cbn [List.concat]. now rewrite app_nil_r. Qed.

(** Flushing the accumulator moves its content, nothing else. *)
Lemma letters_flush (sep : char) (messages cur : list str) :
  sep = SPACE \/ sep = NEWLINE ->
  letters
    (List.concat
       match cur with [] => messages | _ :: _ => messages ++ [join [sep] cur] end)
  = letters (List.concat messages) ++ letters (List.concat cur).
Proof.
  intros Hsep. destruct cur as [|x cur'].
  - cbn [List.concat letters List.filter]. now rewrite app_nil_r.
  - now rewrite concat_snoc, letters_app, (letters_join sep) by exact Hsep.
Qed.

Lemma word_step_content (max_chars : Z) (st : acc) (word : str) :
  content_of (word_step max_chars st word) = content_of st ++ letters word.
Proof.
  destruct st as [messages cl]. unfold word_step, content_of.
  destruct (_ <=? _); cbn [fst snd].
  - now rewrite concat_snoc, letters_app, app_assoc.
  - rewrite (letters_flush SPACE) by now left.
    cbn [List.concat]. now rewrite app_nil_r.
Qed.

Lemma fold_left_content {B : Type} (f : acc -> B -> acc) (g : B -> str)
    (l : list B) (st : acc) :
  (forall st' x, content_of (f st' x) = content_of st' ++ g x) ->
  content_of (fold_left f l st) = content_of st ++ List.concat (List.map g l).
Proof.
  intros Hstep. revert st. induction l as [|x l IH]; intros st; cbn.
  - now rewrite app_nil_r.
  - now rewrite IH, Hstep, app_assoc.
Qed.

Lemma letters_concat (l : list str) :
  letters (List.concat l) = List.concat (List.map letters l).
Proof.
  induction l as [|x l IH]; [reflexivity|].
  cbn. now rewrite letters_app, IH.
Qed.

Lemma line_step_content (max_chars : Z) (st : acc) (line : str) :
  content_of (line_step max_chars st line) = content_of st ++ letters line.
Proof.
  destruct st as [messages cm]. unfold line_step.
  destruct (_ <=? _).
  - unfold content_of. cbn [fst snd].
    now rewrite concat_snoc, letters_app, app_assoc.
  - set (messages1 := match cm with [] => messages | _ :: _ => _ end).
    assert (H1 : letters (List.concat messages1)
                 = letters (List.concat messages) ++ letters (List.concat cm))
      by (apply (letters_flush NEWLINE); now right).
    destruct (_ >? _).
    + pose proof (fold_left_content (word_step max_chars) letters
                    (split SPACE line) (messages1, [])
                    (word_step_content max_chars)) as Hc.
      pose proof (fold_left_last_step (word_step max_chars) (fun st => snd st <> [])
                    (split SPACE line) (messages1, [])
                    (split_not_nil _ _) (word_step_acc_nonempty max_chars)) as Hne.
      destruct (fold_left _ _ _) as [messages2 cl]. cbn [snd] in Hne.
      destruct cl as [|w cl']; [congruence|].
      unfold content_of in *. cbn [fst snd] in *.
      change (List.concat [join [SPACE] (w :: cl')]) with (join [SPACE] (w :: cl') ++ []).
      rewrite app_nil_r, (letters_join SPACE) by now left.
      rewrite Hc, H1. cbn [List.concat letters List.filter]. rewrite app_nil_r.
      rewrite <- letters_concat.
      rewrite <- (letters_join SPACE (split SPACE line)) by now left.
      now rewrite join_split.
    + unfold content_of. cbn [fst snd]. rewrite H1. cbn [List.concat].
      now rewrite app_nil_r.
Qed.

(** X1 (content): the messages, put end to end, hold the characters of
    the text other than spaces and newlines, all of them and in the same
    order: the paginator drops, adds and moves nothing but separators. *)
Theorem split_message_keeps_content (text : str) (max_chars : Z) :
  letters (List.concat (split_message text max_chars)) = letters text.
Proof.
  unfold split_message. destruct (_ <=? _).
  - cbn [List.concat]. now rewrite app_nil_r.
  - pose proof (fold_left_content (line_step max_chars) letters
                  (split NEWLINE text) ([], [])
                  (line_step_content max_chars)) as Hc.
    destruct (fold_left _ _ _) as [messages cm].
    rewrite (letters_flush NEWLINE) by now right.
    unfold content_of in Hc. cbn [fst snd] in Hc. rewrite Hc.
    cbn [List.concat letters List.filter app].
    rewrite <- letters_concat.
    rewrite <- (letters_join NEWLINE (split NEWLINE text)) by now right.
    now rewrite join_split.
Qed.

(** ** Joining the messages back *)

Lemma join_cons (sep x : str) (l : list str) :
  l <> [] -> join sep (x :: l) = x ++ sep ++ join sep l.
Proof. destruct l; [congruence|reflexivity]. Qed.

Lemma join_snoc (sep : str) (l : list str) (x : str) :
  l <> [] -> join sep (l ++ [x]) = join sep l ++ sep ++ x.
Proof.
  induction l as [|y l IH]; [congruence|]. intros _.
  destruct l as [|z l'].
  - reflexivity.
  - change ((y :: z :: l') ++ [x]) with (y :: ((z :: l') ++ [x])).
    rewrite join_cons by (destruct l'; discriminate).
    rewrite IH by discriminate.
    rewrite (join_cons sep y (z :: l')) by discriminate.
    now rewrite <- !app_assoc.
Qed.

(** A flushed accumulator joins like its lines. *)
Lemma join_flush (sep : str) (messages cur : list str) :
  cur <> [] -> join sep (messages ++ [join sep cur]) = join sep (messages ++ cur).
Proof.
  intros Hcur. induction messages as [|m messages IH]; [reflexivity|].
  cbn [app]. rewrite !join_cons, IH; [reflexivity|..].
  - destruct messages; [exact Hcur|discriminate].
  - destruct messages; discriminate.
Qed.

Section LinesThatFit.

Variable max_chars : Z.

Lemma line_step_stands_for (st : acc) (seen : list str) (line : str) :
  len line <= max_chars ->
  stands_for st seen ->
  stands_for (line_step max_chars st line) (seen ++ [line]).
Proof.
  destruct st as [messages cm]. unfold stands_for, line_step. cbn [fst snd].
  intros Hfit Hst. right.
  assert (Hgoal : forall l : list str,
             (l = [] /\ seen = []) \/
             (l <> [] /\ seen <> [] /\ join [NEWLINE] l = join [NEWLINE] seen) ->
             join [NEWLINE] (l ++ [line]) = join [NEWLINE] (seen ++ [line])).
  { intros l [[-> ->]|(Hl & Hs & Hj)]; [reflexivity|].
    now rewrite !join_snoc, Hj by assumption. }
  destruct (_ <=? _); cbn [fst snd].
  - split; [destruct messages; destruct cm; discriminate|].
    split; [destruct seen; discriminate|].
    rewrite app_assoc. now apply Hgoal.
  - destruct (Z.gtb_spec (len line) max_chars) as [Hbig|_]; [lia|]. cbn [fst snd].
    split; [destruct cm; destruct messages; discriminate|].
    split; [destruct seen; discriminate|].
    destruct cm as [|l0 cm'].
    + rewrite app_nil_r in Hst. now apply Hgoal.
    + destruct Hst as [[Hnil _]|(_ & Hs & Hj)];
        [destruct messages; discriminate|].
      rewrite (join_snoc _ (messages ++ [join [NEWLINE] (l0 :: cm')]))
        by (destruct messages; discriminate).
      rewrite (join_snoc _ seen) by exact Hs.
      rewrite join_flush by discriminate. now rewrite Hj.
Qed.

Lemma line_loop_stands_for (lines : list str) (st : acc) (seen : list str) :
  Forall (fun line => len line <= max_chars) lines ->
  stands_for st seen ->
  stands_for (fold_left (line_step max_chars) lines st) (seen ++ lines).
Proof.
  revert st seen. induction lines as [|line lines IH]; intros st seen Hfit Hst.
  - now rewrite app_nil_r.
  - apply Forall_cons_iff in Hfit as [Hline Hrest]. cbn [fold_left].
    replace (seen ++ line :: lines) with ((seen ++ [line]) ++ lines)
      by now rewrite <- app_assoc.
    apply IH; [exact Hrest|]. now apply line_step_stands_for.
Qed.

(** X2 (round trip): when no line of the text is longer than
    [max_chars], joining the returned messages with newlines gives the
    text back. *)
Theorem split_message_join_lines (text : str) :
  Forall (fun line => len line <= max_chars) (split NEWLINE text) ->
  join [NEWLINE] (split_message text max_chars) = text.
Proof.
  intros Hfit. unfold split_message. destruct (_ <=? _); [reflexivity|].
  pose proof (line_loop_stands_for (split NEWLINE text) ([], []) [] Hfit) as Hst.
  cbn [app] in Hst.
  destruct (fold_left _ _ _) as [messages cm].
  destruct Hst as [[_ Hnil]|(_ & _ & Hj)].
  - left. split; reflexivity.
  - now apply split_not_nil in Hnil.
  - cbn [fst snd] in Hj.
    transitivity (join [NEWLINE] (messages ++ cm)).
    + destruct cm as [|l0 cm']; [now rewrite app_nil_r|].
      now apply join_flush.
    + rewrite Hj. apply join_split.
Qed.

End LinesThatFit.

(** ** When no message is empty *)

Lemma join_nonempty (sep x : str) (l : list str) :
  x <> [] -> join sep (x :: l) <> [].
Proof.
  intros Hx. cbn [join]. destruct l; [exact Hx|].
  destruct x; [congruence|discriminate].
Qed.

Lemma flush_nonempty (sep : str) (messages cur : list str) :
  Forall (fun s : str => s <> []) messages ->
  Forall (fun s : str => s <> []) cur ->
  Forall (fun s : str => s <> [])
    match cur with [] => messages | _ :: _ => messages ++ [join sep cur] end.
Proof.
  intros Hm Hc. destruct cur as [|x cur']; [exact Hm|].
  apply Forall_app. split; [exact Hm|]. constructor; [|constructor].
  apply join_nonempty. now apply Forall_cons_iff in Hc as [Hx _].
Qed.

Lemma word_step_all_nonempty (max_chars : Z) (st : acc) (word : str) :
  word <> [] -> all_nonempty st -> all_nonempty (word_step max_chars st word).
Proof.
  destruct st as [messages cl]. unfold all_nonempty, word_step. cbn [fst snd].
  intros Hw [Hm Hcl]. destruct (_ <=? _); cbn [fst snd].
  - split; [exact Hm|]. apply Forall_app. split; [exact Hcl|]. now constructor.
  - split; [now apply flush_nonempty|]. now constructor.
Qed.

Lemma line_step_all_nonempty (max_chars : Z) (st : acc) (line : str) :
  ~ In [] (split SPACE line) ->
  all_nonempty st -> all_nonempty (line_step max_chars st line).
Proof.
  destruct st as [messages cm]. unfold line_step. intros Hwords [Hm Hcm].
  cbn [fst snd] in Hm, Hcm.
  assert (Hline : line <> []) by (intros ->; apply Hwords; now left).
  destruct (_ <=? _).
  - split; cbn [fst snd]; [exact Hm|].
    apply Forall_app. split; [exact Hcm|]. now constructor.
  - pose proof (flush_nonempty [NEWLINE] messages cm Hm Hcm) as Hm1.
    destruct (_ >? _).
    + assert (Hw : all_nonempty
                     (fold_left (word_step max_chars) (split SPACE line)
                        (match cm with
                         | [] => messages
                         | _ :: _ => messages ++ [join [NEWLINE] cm]
                         end, []))).
      { apply fold_left_invariant.
        - split; [exact Hm1|constructor].
        - intros st w Hin. apply word_step_all_nonempty.
          intros ->. now apply Hwords. }
      destruct (fold_left _ _ _) as [messages2 cl]. destruct Hw as [Hm2 Hcl].
      cbn [fst snd] in Hm2, Hcl.
      destruct cl as [|w cl']; split; cbn [fst snd]; try assumption.
      constructor; [|constructor]. apply join_nonempty.
      now apply Forall_cons_iff in Hcl as [Hw _].
    + split; cbn [fst snd]; [exact Hm1|]. now constructor.
Qed.

(** X3 (no empty message): if no line of the text is empty and no line
    starts with, ends with or doubles a space, that is if no word of the
    text is empty, then no returned message is empty. *)
Theorem split_message_nonempty_chunks (text : str) (max_chars : Z) (c : str) :
  ~ In [] (words_of text) ->
  In c (split_message text max_chars) ->
  c <> [].
Proof.
  intros Hwords. unfold split_message. destruct (_ <=? _).
  - intros [<-|[]] ->. apply Hwords. now left.
  - assert (Hinv : all_nonempty
                     (fold_left (line_step max_chars) (split NEWLINE text) ([], []))).
    { apply fold_left_invariant.
      - split; constructor.
      - intros st line Hin. apply line_step_all_nonempty.
        intros Hw. apply Hwords. unfold words_of. apply in_flat_map.
        exists line. now split. }
    destruct (fold_left _ _ _) as [messages cm]. destruct Hinv as [Hm Hcm].
    cbn [fst snd] in Hm, Hcm.
    pose proof (flush_nonempty [NEWLINE] messages cm Hm Hcm) as Hall.
    rewrite List.Forall_forall in Hall. exact (Hall c).
Qed.

Lemma split_message_nonempty_chunks_witness :
  let text := lit "one two" ++ [NEWLINE] ++ lit "three four five" in
  let c := lit "three four" in
  (~ In [] (words_of text) /\ In c (split_message text 10)) /\ c <> [].
Proof.
  cbv zeta.
  assert (Hw : ~ In [] (words_of (lit "one two" ++ [NEWLINE] ++ lit "three four five"))).
  { vm_compute. intros H. repeat destruct H as [H|H]; try discriminate H. exact H. }
  assert (Hin : In (lit "three four")
                  (split_message (lit "one two" ++ [NEWLINE] ++ lit "three four five") 10)).
  { vm_compute. right. left. reflexivity. }
  split; [split; assumption|].
  exact (split_message_nonempty_chunks _ 10 _ Hw Hin).
Defined.

(** X4 (a message is always returned): for every text and every limit,
    also an empty text or a limit that is not positive, the result has a
    first message. *)
Theorem split_message_returns_a_message (text : str) (max_chars : Z) :
  exists first rest, split_message text max_chars = first :: rest.
Proof.
  pose proof (split_message_not_nil text max_chars) as H.
  destruct (split_message text max_chars) as [|first rest]; [congruence|].
  now exists first, rest.
Qed.

(** X5 (the copies agree): [split_message] of commands.py, which builds
    its test strings without the emptiness test, returns the same list as
    the copy in ai.py, fun.py and sunrise.py on every input. *)
Theorem split_message_copies_agree (text : str) (max_chars : Z) :
  split_message_cmd text max_chars = split_message text max_chars.
Proof.
  unfold split_message_cmd, split_message.
  now rewrite (fold_left_pointwise _ _ _ _ (line_step_cmd_eq max_chars)).
Qed.

(** ** The paged command list, for any number of pages *)

Lemma str_of_nat_len (k : nat) : (k < 1000)%nat -> 1 <= len (str_of_nat k) <= 3.
Proof.
  intros Hk.
  assert (Hall : forallb (fun k => (1 <=? len (str_of_nat k)) && (len (str_of_nat k) <=? 3))
                   (seq 0 1000) = true) by (vm_compute; reflexivity).
  rewrite forallb_forall in Hall.
  specialize (Hall k). rewrite in_seq in Hall.
  apply andb_true_iff in Hall as [H1 H3]; [|lia].
  apply Z.leb_le in H1, H3. lia.
Qed.

(** The header line has 37 characters and the four numbers. *)
Lemma page_header_len (i n : nat) :
  len (page_header i n)
  = 37 + 2 * len (str_of_nat i) + 2 * len (str_of_nat n).
Proof.
  unfold page_header. rewrite !len_app.
  change (len (lit "Available Commands: Page ")) with 25.
  change (len (lit " of ")) with 4.
  change (len (lit " (Msg ")) with 6.
  change (len (lit "/")) with 1.
  change (len (lit ")")) with 1.
  lia.
Qed.

Lemma number_messages_all_fit (total : nat) (rest : list str) (i : nat) :
  (total < 1000)%nat ->
  (i + length rest <= 1000)%nat ->
  Forall (fun b => len b <= 199 - 50) rest ->
  number_messages total i rest
    = imap (fun k b => page_header (i + k) total ++ [NEWLINE] ++ b) rest /\
  Forall (fun c => len c <= 199) (number_messages total i rest).
Proof.
  intros Htotal. revert i. induction rest as [|b rest IH]; intros i Hi Hfit.
  - split; [reflexivity|constructor].
  - apply Forall_cons_iff in Hfit as [Hb Hrest]. cbn [length] in Hi.
    assert (Hhead : len (page_header i total) + 1 + len b <= 199).
    { rewrite page_header_len.
      pose proof (str_of_nat_len i ltac:(lia)).
      pose proof (str_of_nat_len total Htotal). lia. }
    rewrite (number_messages_fits total i b rest Hhead).
    destruct (IH (S i) ltac:(lia) Hrest) as [IHeq IHall].
    split.
    + rewrite imap_cons, Nat.add_0_r. f_equal. rewrite IHeq.
      apply imap_ext. intros k x _. cbn. now rewrite Nat.add_succ_r.
    + constructor; [|exact IHall].
      rewrite !len_app. change (len [NEWLINE]) with 1. lia.
Qed.

(** X6 (paged list): for any registry whose list splits into more than
    one and fewer than 1000 messages under the reduced budget and holds
    no word longer than that budget, the reserved 50 characters suffice:
    the result has one message per body message, message [i] (from 1) is
    the header [Available Commands: Page i of n (Msg i/n)], a newline and
    the body message, and none exceeds 199 characters. *)
Theorem get_commands_list_pages (commands : registry) :
  let body := split_message_cmd (commands_text commands) (199 - 50) in
  let n := length body in
  (1 < n < 1000)%nat ->
  Forall (fun w => len w <= 199 - 50) (words_of (commands_text commands)) ->
  get_commands_list commands
    = Messages (imap (fun k b => page_header (1 + k) n ++ [NEWLINE] ++ b) body) /\
  Forall (fun c => len c <= 199)
    (imap (fun k b => page_header (1 + k) n ++ [NEWLINE] ++ b) body).
Proof.
  intros body n Hn Hwords.
  assert (Hbody : Forall (fun b => len b <= 199 - 50) body).
  { apply List.Forall_forall. intros c Hc. subst body.
    rewrite split_message_cmd_eq in Hc.
    apply split_message_admissible in Hc as [Hle|[Hbig Hw]]; [exact Hle|].
    rewrite List.Forall_forall in Hwords. exact (Hwords c Hw). }
  destruct (number_messages_all_fit n body 1 ltac:(lia) ltac:(subst n; lia) Hbody)
    as [Heq Hall].
  rewrite <- Heq. split; [|exact Hall].
  unfold get_commands_list. fold body.
  destruct (Z.gtb_spec (len_list body) 1) as [_|Hle]; [reflexivity|].
  unfold len_list in Hle. subst n. lia.
Qed.

Lemma get_commands_list_pages_witness :
  ((1 < length (split_message_cmd (commands_text COMMANDS) (199 - 50)) < 1000)%nat /\
   Forall (fun w => len w <= 199 - 50) (words_of (commands_text COMMANDS))) /\
  exists l, get_commands_list COMMANDS = Messages l /\ length l = 3%nat /\
            Forall (fun c => len c <= 199) l.
Proof.
  assert (Hn : (1 < length (split_message_cmd (commands_text COMMANDS) (199 - 50)) < 1000)%nat)
    by (vm_compute; split; repeat constructor).
  assert (Hw : Forall (fun w => len w <= 199 - 50) (words_of (commands_text COMMANDS))).
  { apply List.Forall_forall. intros w Hin.
    assert (Hall : forallb (fun w => len w <=? 199 - 50)
                     (words_of (commands_text COMMANDS)) = true)
      by (vm_compute; reflexivity).
    rewrite forallb_forall in Hall. apply Z.leb_le. now apply Hall. }
  split; [split; assumption|].
  destruct (get_commands_list_pages COMMANDS Hn Hw) as [Heq Hall].
  eexists. split; [exact Heq|]. split; [|exact Hall].
  rewrite length_imap. vm_compute. reflexivity.
Defined.

Lemma number_messages_length (total i : nat) (rest : list str) :
  (length rest <= length (number_messages total i rest))%nat.
Proof.
  revert i. induction rest as [|msg rest IH]; intros i; [reflexivity|].
  cbn [number_messages]. rewrite length_app. cbn [length].
  specialize (IH (S i)).
  destruct (_ >? _).
  - pose proof (split_message_not_nil
                  (page_header i total ++ [NEWLINE] ++ msg) 199) as Hnn.
    rewrite split_message_cmd_eq.
    destruct (split_message _ _); [congruence|]. cbn [length]. lia.
  - cbn [length]. lia.
Qed.

Lemma get_commands_list_shape (commands : registry) :
  well_shaped (get_commands_list commands).
Proof.
  unfold get_commands_list.
  set (body := split_message_cmd (commands_text commands) (199 - 50)).
  destruct (Z.gtb_spec (len_list body) 1) as [Hmany|Hone].
  - pose proof (number_messages_length (length body) 1 body).
    unfold len_list in Hmany. cbn. lia.
  - destruct body; discriminate.
Qed.

(** X7 (never an empty reply): for every registry, also an empty one,
    [get_commands_list] returns a non-empty string or a list of at least
    two messages. *)
Theorem get_commands_list_never_empty (commands : registry) :
  match get_commands_list commands with
  | Text s => s <> []
  | Messages l => (2 <= length l)%nat
  end.
Proof. exact (get_commands_list_shape commands). Qed.

(** ** More on the resolver *)

(** X8 (the placeholder test of ai.py changes nothing): whether
    [re.search] finds a placeholder or not, ai.py strips the same prefix,
    so the resolved question does not depend on the class [\w]. *)
Theorem ai_resolve_ignores_placeholder_test (lower : str -> str)
    (is_word1 is_word2 : char -> bool) (hostParam rawMessage triggerPattern : str) :
  ai_resolve lower is_word1 hostParam rawMessage triggerPattern
  = ai_resolve lower is_word2 hostParam rawMessage triggerPattern.
Proof.
  unfold ai_resolve.
  destruct (negb _ || _); [|reflexivity].
  destruct (nonempty (strip rawMessage) && nonempty (strip triggerPattern));
    [|reflexivity].
  destruct (re_search_param is_word1 (strip triggerPattern)) eqn:H1;
    destruct (re_search_param is_word2 (strip triggerPattern)) eqn:H2;
    try reflexivity.
  - now rewrite (literal_prefix_placeholder is_word1 _ H1).
  - now rewrite (literal_prefix_placeholder is_word2 _ H2).
Qed.

Lemma hd_rev_last (s : str) (d : char) : hd d (rev s) = List.last s d.
Proof.
  induction s as [|c s IH] using rev_ind; [reflexivity|].
  rewrite rev_app_distr, List.last_last. reflexivity.
Qed.

Lemma lstrip_fixed (s : str) : isspace (hd SPACE s) = false -> lstrip s = s.
Proof. destruct s as [|c s]; [reflexivity|]. cbn. now intros ->. Qed.

(** A string that neither starts nor ends with whitespace is its own
    [strip]. *)
Lemma strip_fixed (s : str) :
  isspace (hd SPACE s) = false -> isspace (List.last s SPACE) = false -> strip s = s.
Proof.
  intros Hhd Hlast. unfold strip. rewrite (lstrip_fixed s Hhd).
  rewrite lstrip_fixed by now rewrite hd_rev_last.
  apply rev_involutive.
Qed.

Lemma strip_leading_space (s : str) : strip (SPACE :: s) = strip s.
Proof. reflexivity. Qed.

Lemma strip_trailing_space (s : str) :
  isspace (hd SPACE s) = false -> strip (s ++ [SPACE]) = strip s.
Proof.
  intros Hhd. unfold strip.
  assert (Hs : lstrip (s ++ [SPACE]) = lstrip s ++ [SPACE]).
  { destruct s as [|c s]; [discriminate|]. cbn in *. now rewrite Hhd. }
  rewrite Hs, rev_app_distr. reflexivity.
Qed.

Lemma startswith_quote_last (q : char) (s : str) :
  endswith [q] (s ++ [q]) = true.
Proof.
  unfold endswith. rewrite rev_app_distr. cbn. now rewrite N.eqb_refl.
Qed.

(** [strip_quotes] undoes one layer of quotes, whatever is inside. *)
Lemma strip_quotes_quoted (q : char) (s : str) :
  q = DQUOTE \/ q = SQUOTE -> strip_quotes ([q] ++ s ++ [q]) = s.
Proof.
  intros Hq. unfold strip_quotes.
  assert (Hend : endswith [q] ([q] ++ s ++ [q]) = true).
  { rewrite app_assoc. apply startswith_quote_last. }
  assert (Hslice : slice_1_m1 ([q] ++ s ++ [q]) = s).
  { unfold slice_1_m1. cbn [app tl]. apply removelast_last. }
  destruct Hq as [-> | ->].
  - rewrite Hend. cbn [app startswith]. cbn. exact Hslice.
  - rewrite Hend. cbn [app startswith]. cbn. exact Hslice.
Qed.

Lemma split_head (sep : char) (a b : str) :
  contains sep a = false -> hd [] (split sep (a ++ sep :: b)) = a.
Proof.
  induction a as [|c a IH]; cbn [app split contains existsb].
  - intros _. now rewrite N.eqb_refl.
  - intros H. apply orb_false_iff in H as [Hc Ha].
    rewrite N.eqb_sym, Hc. specialize (IH Ha).
    destruct (split sep (a ++ sep :: b)) as [|w ws]; cbn in *; now subst.
Qed.

Lemma contains_app (c : char) (a b : str) :
  contains c (a ++ b) = contains c a || contains c b.
Proof. apply existsb_app. Qed.

Lemma skipn_length_app (a a' b : str) :
  length a = length a' -> slice_from (length a) (a' ++ b) = b.
Proof.
  intros ->. unfold slice_from. rewrite skipn_app, skipn_all, Nat.sub_diag.
  reflexivity.
Qed.

Lemma re_search_param_shape (is_word : char -> bool) (w name : str) :
  name <> [] -> forallb is_word name = true ->
  re_search_param is_word (w ++ [SPACE; LBRACE] ++ name ++ [RBRACE]) = true.
Proof.
  intros Hname Hword.
  assert (Hclose : match_name_close is_word (name ++ [RBRACE]) = true).
  { clear w. induction name as [|c name IH]; [congruence|].
    cbn in Hword. apply andb_true_iff in Hword as [Hc Hrest].
    cbn [app match_name_close]. rewrite Hc. cbn [andb].
    destruct name as [|c' name']; [reflexivity|].
    rewrite IH by (assumption || discriminate). apply orb_true_r. }
  induction w as [|c w IH].
  - cbn [app re_search_param]. rewrite Hclose. reflexivity.
  - cbn [app re_search_param]. cbn [app] in IH. rewrite IH. apply orb_true_r.
Qed.

(** X9 (a quoted argument is recovered): let the trigger be a word [w]
    followed by a placeholder, and the message the same word in any
    letter case, a space and an argument between double or single
    quotes. With no host parameter, both resolvers return the argument
    as it stands between the quotes, whatever characters it holds. *)
Theorem resolve_recovers_quoted_argument (lower : str -> str) (is_word : char -> bool)
    (w w' name s : str) (q : char) :
  isspace (hd SPACE w) = false -> isspace (List.last w SPACE) = false ->
  contains LBRACE w = false ->
  length w' = length w -> isspace (hd SPACE w') = false ->
  q = DQUOTE \/ q = SQUOTE ->
  name <> [] -> forallb is_word name = true ->
  let triggerPattern := w ++ [SPACE; LBRACE] ++ name ++ [RBRACE] in
  let rawMessage := w' ++ [SPACE] ++ [q] ++ s ++ [q] in
  startswith (lower w) (lower rawMessage) = true ->
  ai_resolve lower is_word [] rawMessage triggerPattern = s /\
  sunrise_resolve lower is_word [] rawMessage triggerPattern = s.
Proof.
  intros Hw1 Hw2 Hbrace Hlen Hw' Hq Hname Hword triggerPattern rawMessage Hmatch.
  assert (Hq_space : isspace q = false) by (destruct Hq as [-> | ->]; reflexivity).
  assert (Hraw : strip rawMessage = rawMessage).
  { apply strip_fixed.
    - subst rawMessage. destruct w'; [discriminate|exact Hw'].
    - subst rawMessage. rewrite !app_assoc, List.last_last. exact Hq_space. }
  assert (Htrig : strip triggerPattern = triggerPattern).
  { apply strip_fixed.
    - subst triggerPattern. destruct w; [discriminate|exact Hw1].
    - subst triggerPattern. rewrite !app_assoc, List.last_last. reflexivity. }
  assert (Hprefix : prefix_before_brace triggerPattern = w).
  { unfold prefix_before_brace. subst triggerPattern.
    change (w ++ [SPACE; LBRACE] ++ name ++ [RBRACE])
      with (w ++ [SPACE] ++ LBRACE :: name ++ [RBRACE]).
    rewrite app_assoc, split_head.
    - rewrite strip_trailing_space by exact Hw1. now apply strip_fixed.
    - rewrite contains_app, Hbrace. reflexivity. }
  assert (Hsearch : re_search_param is_word triggerPattern = true)
    by now apply re_search_param_shape.
  assert (Hextract : extract_after w rawMessage = s).
  { unfold extract_after. subst rawMessage.
    rewrite skipn_length_app by congruence.
    cbn [app]. rewrite strip_leading_space.
    rewrite strip_fixed.
    - now apply (strip_quotes_quoted q s).
    - exact Hq_space.
    - change (q :: s ++ [q]) with ([q] ++ s ++ [q]).
      rewrite app_assoc, List.last_last. exact Hq_space. }
  assert (Hne_raw : nonempty rawMessage = true)
    by (subst rawMessage; destruct w'; [discriminate|reflexivity]).
  assert (Hne_trig : nonempty triggerPattern = true)
    by (subst triggerPattern; destruct w; reflexivity).
  split.
  - unfold ai_resolve. change (strip []) with ([] : str). cbn [nonempty negb orb].
    rewrite Hraw, Htrig, Hne_raw, Hne_trig, Hsearch, Hprefix, Hmatch. cbn [andb].
    exact Hextract.
  - unfold sunrise_resolve. change (strip []) with ([] : str). cbn [nonempty negb orb].
    rewrite Hraw, Htrig, Hne_raw, Hne_trig, Hsearch, Hprefix, Hmatch. cbn [andb].
    exact Hextract.
Qed.

Lemma resolve_recovers_quoted_argument_witness :
  let w := lit "sunrise" in
  let w' := lit "SunRise" in
  let name := lit "location" in
  let s := lit "New York, NY" in
  (isspace (hd SPACE w) = false /\ isspace (List.last w SPACE) = false /\
   contains LBRACE w = false /\ length w' = length w /\
   isspace (hd SPACE w') = false /\ (DQUOTE = DQUOTE \/ DQUOTE = SQUOTE) /\
   name <> [] /\ forallb word_ascii name = true /\
   startswith (lower_ascii w)
     (lower_ascii (w' ++ [SPACE] ++ [DQUOTE] ++ s ++ [DQUOTE])) = true) /\
  ai_resolve lower_ascii word_ascii []
    (w' ++ [SPACE] ++ [DQUOTE] ++ s ++ [DQUOTE])
    (w ++ [SPACE; LBRACE] ++ name ++ [RBRACE]) = s /\
  sunrise_resolve lower_ascii word_ascii []
    (w' ++ [SPACE] ++ [DQUOTE] ++ s ++ [DQUOTE])
    (w ++ [SPACE; LBRACE] ++ name ++ [RBRACE]) = s.
Proof.
  cbv zeta.
  assert (H1 : isspace (hd SPACE (lit "sunrise")) = false) by reflexivity.
  assert (H2 : isspace (List.last (lit "sunrise") SPACE) = false) by reflexivity.
  assert (H3 : contains LBRACE (lit "sunrise") = false) by reflexivity.
  assert (H4 : length (lit "SunRise") = length (lit "sunrise")) by reflexivity.
  assert (H5 : isspace (hd SPACE (lit "SunRise")) = false) by reflexivity.
  assert (H6 : DQUOTE = DQUOTE \/ DQUOTE = SQUOTE) by (left; reflexivity).
  assert (H7 : lit "location" <> []) by (vm_compute; discriminate).
  assert (H8 : forallb word_ascii (lit "location") = true) by reflexivity.
  assert (H9 : startswith (lower_ascii (lit "sunrise"))
                 (lower_ascii (lit "SunRise" ++ [SPACE] ++ [DQUOTE]
                               ++ lit "New York, NY" ++ [DQUOTE])) = true)
    by reflexivity.
  split; [repeat split; assumption|].
  exact (resolve_recovers_quoted_argument lower_ascii word_ascii
           (lit "sunrise") (lit "SunRise") (lit "location") (lit "New York, NY")
           DQUOTE H1 H2 H3 H4 H5 H6 H7 H8 H9).
Defined.

(** ** The provider chain of ai.py *)

Section ProviderChain.

Variable query : provider -> str -> option str.
Variable self : bot.
Variable question : str.

Lemma provider_loop_spec (providers : list provider) (response_text : option str)
    (queried : list provider) :
  truthy response_text = false ->
  let answers := fun p => truthy (query p question) in
  let res := provider_loop query self question providers response_text queried in
  snd res = queried ++ upto_first answers (List.filter (available self) providers) /\
  match List.find answers (List.filter (available self) providers) with
  | Some p => fst res = query p question /\ truthy (query p question) = true
  | None => truthy (fst res) = false
  end.
Proof.
  intros Hrt answers. revert response_text queried Hrt.
  induction providers as [|p rest IH]; intros response_text queried Hrt.
  - cbn. rewrite app_nil_r. now split.
  - assert (Hskip : available self p = false ->
                    let res := provider_loop query self question rest response_text queried in
                    snd res = queried ++ upto_first answers
                                           (List.filter (available self) (p :: rest)) /\
                    match List.find answers (List.filter (available self) (p :: rest)) with
                    | Some p' => fst res = query p' question /\ truthy (query p' question) = true
                    | None => truthy (fst res) = false
                    end).
    { intros Hav. cbn [List.filter]. rewrite Hav. now apply IH. }
    assert (Hcall : available self p = true ->
                    let res := if truthy (query p question)
                               then (query p question, queried ++ [p])
                               else provider_loop query self question rest
                                      (query p question) (queried ++ [p]) in
                    snd res = queried ++ upto_first answers
                                           (List.filter (available self) (p :: rest)) /\
                    match List.find answers (List.filter (available self) (p :: rest)) with
                    | Some p' => fst res = query p' question /\ truthy (query p' question) = true
                    | None => truthy (fst res) = false
                    end).
    { intros Hav. cbn [List.filter]. rewrite Hav. cbn [upto_first List.find].
      subst answers. cbn beta. destruct (truthy (query p question)) eqn:Hans.
      - cbn [fst snd]. now split.
      - destruct (IH (query p question) (queried ++ [p]) Hans) as [Hq Hr].
        cbn zeta. split; [|exact Hr]. rewrite Hq, <- app_assoc. reflexivity. }
    cbn [provider_loop]. destruct p.
    + now apply Hcall.
    + cbn [available] in *. destruct (nonempty (openai_key self)).
      * now apply Hcall.
      * rewrite Hrt. now apply Hskip.
    + cbn [available] in *. destruct (nonempty (anthropic_key self)).
      * now apply Hcall.
      * rewrite Hrt. now apply Hskip.
Qed.

Lemma strip_nonempty_arg (s : str) : strip s <> [] -> s <> [].
Proof. intros H ->. now apply H. Qed.

(** X10 (who answers): for a question that is not blank, the reply is
    the text of the first provider, in the order set by [AI_PROVIDER],
    that is available (Ollama, or a cloud provider with its key) and
    returns a non-empty text; when there is none, it is the error
    [AI service unavailable]. A reply never carries an empty text. *)
Theorem get_ai_response_first_answer :
  strip question <> [] ->
  match List.find (fun p => truthy (query p question))
          (List.filter (available self) (providers_for (bot_provider self))) with
  | Some p =>
      exists text,
        query p question = Some text /\ text <> [] /\
        fst (get_ai_response query self question) = Ok text
  | None =>
      fst (get_ai_response query self question)
      = Err (lit "AI service unavailable. Check Ollama service or API keys.")
  end.
Proof.
  intros Hq. unfold get_ai_response.
  rewrite (nonempty_true _ Hq), (nonempty_true _ (strip_nonempty_arg _ Hq)).
  cbn [negb orb].
  pose proof (provider_loop_spec (providers_for (bot_provider self)) None []
                eq_refl) as [_ Hres].
  destruct (provider_loop _ _ _ _ _ _) as [response_text queried].
  cbn [fst] in Hres.
  destruct (List.find _ _) as [p|].
  - destruct Hres as [-> Htruthy].
    destruct (query p question) as [[|c text]|]; try discriminate.
    exists (c :: text). repeat split. discriminate.
  - destruct response_text as [[|c text]|]; try discriminate; reflexivity.
Qed.

(** X11 (who is queried): a blank question is refused without any
    query. Otherwise the providers queried are, in the configured order,
    the available ones up to and including the first that answers: a
    provider without key is never queried, and none is queried after an
    answer or twice. *)
Theorem get_ai_response_queries :
  (strip question = [] ->
   get_ai_response query self question
   = (Err (lit "Please provide a question or prompt."), [])) /\
  (strip question <> [] ->
   snd (get_ai_response query self question)
   = upto_first (fun p => truthy (query p question))
       (List.filter (available self) (providers_for (bot_provider self)))).
Proof.
  split; intros Hq; unfold get_ai_response.
  - rewrite Hq. cbn [nonempty negb]. now rewrite orb_true_r.
  - rewrite (nonempty_true _ Hq), (nonempty_true _ (strip_nonempty_arg _ Hq)).
    cbn [negb orb].
    pose proof (provider_loop_spec (providers_for (bot_provider self)) None []
                  eq_refl) as [Htrace _].
    destruct (provider_loop _ _ _ _ _ _) as [response_text queried].
    cbn [snd app] in Htrace. subst queried.
    destruct response_text as [[|c text]|]; reflexivity.
Qed.

End ProviderChain.

Lemma get_ai_response_first_answer_witness :
  let self := {| bot_provider := lit "anthropic";
                 openai_key := lit "sk-test"; anthropic_key := [] |} in
  let question := lit "What is mesh?" in
  strip question <> [] /\
  fst (get_ai_response sample_query self question) = Ok (lit "A mesh relays messages.").
Proof.
  cbv zeta.
  assert (Hq : strip (lit "What is mesh?") <> []) by (vm_compute; discriminate).
  split; [exact Hq|].
  pose proof (get_ai_response_first_answer sample_query
                {| bot_provider := lit "anthropic";
                   openai_key := lit "sk-test"; anthropic_key := [] |}
                (lit "What is mesh?") Hq) as H.
  cbv beta iota zeta delta
    [List.find List.filter available providers_for bot_provider openai_key
     anthropic_key nonempty truthy sample_query lit] in H.
  vm_compute bool_decide in H.
  destruct H as (text & Htext & _ & Hres).
  injection Htext as <-. exact Hres.
Defined.

Lemma get_ai_response_queries_witness :
  let self := {| bot_provider := lit "anthropic";
                 openai_key := lit "sk-test"; anthropic_key := [] |} in
  (strip (lit "  ") = [] /\ strip (lit "What is mesh?") <> []) /\
  get_ai_response sample_query self (lit "  ")
    = (Err (lit "Please provide a question or prompt."), []) /\
  snd (get_ai_response sample_query self (lit "What is mesh?")) = [openai].
Proof.
  cbv zeta.
  assert (Hblank : strip (lit "  ") = []) by reflexivity.
  assert (Hq : strip (lit "What is mesh?") <> []) by (vm_compute; discriminate).
  split; [split; assumption|]. split.
  - exact (proj1 (get_ai_response_queries sample_query _ (lit "  ")) Hblank).
  - exact (proj2 (get_ai_response_queries sample_query
                    {| bot_provider := lit "anthropic";
                       openai_key := lit "sk-test"; anthropic_key := [] |}
                    (lit "What is mesh?")) Hq).
Defined.

(** ** What the four scripts send *)

Lemma messages_of_unwrap_single (l : list str) :
  messages_of (unwrap_single l) = l.
Proof. destruct l as [|m [|m' l']]; reflexivity. Qed.

Lemma split_message_sendable (text c : str) :
  In c (split_message text 199) -> sendable c.
Proof.
  intros Hin. apply split_message_admissible in Hin as [Hle|[Hbig Hw]]; [now left|].
  right. split; [exact Hbig|]. exact (words_of_free _ _ Hw).
Qed.

Lemma split_long_sendable (s c : str) :
  In c (messages_of (split_long (Text s))) -> sendable c.
Proof.
  cbn [split_long]. destruct (Z.gtb_spec (len s) 199) as [Hbig|Hfit].
  - rewrite messages_of_unwrap_single. apply split_message_sendable.
  - intros [<-|[]]. now left.
Qed.

Lemma ensure_response_sendable (r : response) :
  (forall c, In c (messages_of r) -> sendable c) ->
  forall c, In c (messages_of (ensure_response r)) -> sendable c.
Proof.
  intros Hr c. destruct r as [[|a s]|[|m l]]; cbn [ensure_response]; try apply Hr.
  - intros [<-|[]]. left. vm_compute. discriminate.
  - intros [<-|[]]. left. vm_compute. discriminate.
Qed.

Lemma unwrap_single_shape (l : list str) :
  l <> [] ->
  match unwrap_single l with
  | Text _ => True
  | Messages l' => (2 <= length l')%nat
  end.
Proof. destruct l as [|m [|m' l']]; cbn; intros; try congruence; auto; lia. Qed.

Lemma split_long_shape (s : str) :
  match split_long (Text s) with
  | Text _ => True
  | Messages l => (2 <= length l)%nat
  end.
Proof.
  cbn [split_long]. destruct (_ >? _); [|exact I].
  apply unwrap_single_shape, split_message_not_nil.
Qed.

Lemma get_help_shape (help_text : str) :
  match get_help help_text with
  | Text _ => True
  | Messages l => (2 <= length l)%nat
  end.
Proof. apply unwrap_single_shape, split_message_not_nil. Qed.

Lemma ensure_response_shape (r : response) :
  match r with
  | Text _ => True
  | Messages l => (2 <= length l)%nat
  end ->
  well_shaped (ensure_response r).
Proof.
  destruct r as [[|a s]|[|m l]]; cbn; intros H; try discriminate; lia.
Qed.

Lemma split_long_keeps_shape (r : response) :
  match r with
  | Text _ => True
  | Messages l => (2 <= length l)%nat
  end ->
  match split_long r with
  | Text _ => True
  | Messages l => (2 <= length l)%nat
  end.
Proof. destruct r as [s|l]; [intros _; apply split_long_shape|auto]. Qed.

Lemma get_ai_response_errors (query : provider -> str -> option str) (self : bot)
    (question message : str) :
  fst (get_ai_response query self question) = Err message ->
  message = lit "Please provide a question or prompt." \/
  message = lit "AI service unavailable. Check Ollama service or API keys.".
Proof.
  unfold get_ai_response. destruct (negb _ || _); cbn [fst].
  - intros [= <-]. now left.
  - destruct (provider_loop _ _ _ _ _ _) as [[[|c text]|] queried]; cbn [fst];
      intros [= <-]; now right.
Qed.

Section Scripts.

Variable lower : str -> str.
Variable is_word : char -> bool.

(** X12 (shape of every reply): in each of the four scripts the reply
    handed to the output block is a non-empty string, printed under
    [response], or a list of at least two messages, printed under
    [responses]; this holds for every environment, every provider,
    every handler result, every generator and every registry. *)
Theorem replies_well_shaped :
  (forall query environ,
     well_shaped (ensure_response (fst (ai_response lower is_word query environ)))) /\
  (forall handler environ,
     well_shaped (ensure_response (sunrise_response lower is_word handler environ))) /\
  (forall rng seed randbelow now environ,
     well_shaped (ensure_response (fun_response lower rng seed randbelow now environ))) /\
  (forall commands environ,
     well_shaped (ensure_response (commands_response lower commands environ))).
Proof.
  repeat split.
  - intros query environ. apply ensure_response_shape. unfold ai_response.
    destruct (negb _); [exact I|].
    destruct (is_help_word _); [apply get_help_shape|].
    destruct (get_ai_response _ _ _) as [[message|text] queried]; cbn [fst];
      [exact I|apply split_long_shape].
  - intros handler environ. apply ensure_response_shape. unfold sunrise_response.
    apply split_long_keeps_shape.
    destruct (negb _); [exact I|].
    destruct (is_help_word _); [apply get_help_shape|].
    destruct (handler _); exact I.
  - intros rng seed randbelow now environ. apply ensure_response_shape.
    unfold fun_response. apply split_long_keeps_shape.
    repeat (match goal with
            | |- context [if ?b then _ else _] => destruct b
            end; try exact I; try apply get_help_shape).
  - intros commands environ. unfold commands_response.
    destruct (is_help_word _); [cbn; discriminate|].
    destruct (_ || _); [|cbn; discriminate].
    pose proof (get_commands_list_shape commands) as H.
    destruct (get_commands_list commands) as [[|a s]|[|m l]]; cbn in *;
      try congruence; try lia; discriminate.
Qed.

(** X13 (what ai.py sends): every message of the reply of ai.py, for
    every environment and whatever the providers return, has at most 199
    characters, unless it is a single word without space and newline
    that is longer. *)
Theorem ai_messages_sendable (query : provider -> str -> option str)
    (environ : gmap string str) (c : str) :
  In c (messages_of (ensure_response (fst (ai_response lower is_word query environ)))) ->
  sendable c.
Proof.
  apply ensure_response_sendable. clear c. intros c. unfold ai_response.
  destruct (negb _).
  { intros [<-|[]]. left. vm_compute. discriminate. }
  destruct (is_help_word _).
  { intros [<-|[]]. left. vm_compute. discriminate. }
  destruct (get_ai_response _ _ _) as [[message|text] queried] eqn:Hres; cbn [fst].
  - assert (Hm : fst (get_ai_response query (from_environ lower environ)
                        (ai_main_question lower is_word environ)) = Err message)
      by now rewrite Hres.
    apply get_ai_response_errors in Hm.
    intros [<-|[]]. left. destruct Hm as [-> | ->]; vm_compute; discriminate.
  - apply split_long_sendable.
Qed.

(** X14 (what sunrise.py sends): every message of the reply of
    sunrise.py, for every environment and every result of the lookup, an
    error included, has at most 199 characters, unless it is a single
    word without space and newline that is longer. *)
Theorem sunrise_messages_sendable (handler : str -> result)
    (environ : gmap string str) (c : str) :
  In c (messages_of (ensure_response (sunrise_response lower is_word handler environ))) ->
  sendable c.
Proof.
  apply ensure_response_sendable. clear c. intros c. unfold sunrise_response.
  destruct (negb _); [apply split_long_sendable|].
  destruct (is_help_word _).
  { replace (get_help sunrise_help_text) with (Text sunrise_help_text)
      by (vm_compute; reflexivity).
    apply split_long_sendable. }
  destruct (handler _); apply split_long_sendable.
Qed.

End Scripts.

Lemma ai_messages_sendable_witness :
  let environ : gmap string str :=
    <["PARAM_question"%string := lit "What is mesh?"]>
      (<["OPENAI_API_KEY"%string := lit "sk-test"]> ∅) in
  let c := lit "A mesh relays messages." in
  In c (messages_of (ensure_response
                       (fst (ai_response lower_ascii word_ascii sample_query environ)))) /\
  sendable c.
Proof.
  cbv zeta.
  assert (Hin : In (lit "A mesh relays messages.")
                  (messages_of
                     (ensure_response
                        (fst (ai_response lower_ascii word_ascii sample_query
                                (<["PARAM_question"%string := lit "What is mesh?"]>
                                   (<["OPENAI_API_KEY"%string := lit "sk-test"]> ∅)))))))
    by (vm_compute; left; reflexivity).
  split; [exact Hin|].
  exact (ai_messages_sendable lower_ascii word_ascii sample_query _ _ Hin).
Defined.

Lemma sunrise_messages_sendable_witness :
  let environ : gmap string str :=
    <["MESSAGE"%string := lit "sunrise 90210"]>
      (<["TRIGGER"%string := lit "sunrise {location}"]> ∅) in
  let c := sunrise_error (lit "Could not find coordinates for location: 90210.") in
  In c (messages_of (ensure_response
                       (sunrise_response lower_ascii word_ascii sample_lookup environ))) /\
  sendable c.
Proof.
  cbv zeta.
  assert (Hin : In (sunrise_error (lit "Could not find coordinates for location: 90210."))
                  (messages_of
                     (ensure_response
                        (sunrise_response lower_ascii word_ascii sample_lookup
                           (<["MESSAGE"%string := lit "sunrise 90210"]>
                              (<["TRIGGER"%string := lit "sunrise {location}"]> ∅))))))
    by (vm_compute; left; reflexivity).
  split; [exact Hin|].
  exact (sunrise_messages_sendable lower_ascii word_ascii sample_lookup _ _ Hin).
Defined.

(** ** fun.py answers in one message *)

Lemma fun_tables_fit :
  Forall (fun s : str => s <> [] /\ len s <= 199)
    (trivia_list ++ facts ++ jokes ++ quotes).
Proof.
  apply List.Forall_forall. intros s Hin.
  assert (Hall : forallb (fun s => nonempty s && (len s <=? 199))
                   (trivia_list ++ facts ++ jokes ++ quotes) = true)
    by (vm_compute; reflexivity).
  rewrite forallb_forall in Hall. specialize (Hall s Hin).
  apply andb_true_iff in Hall as [Hne Hlen]. apply Z.leb_le in Hlen.
  split; [now destruct s|exact Hlen].
Qed.

Lemma choice_in_table (rng : Type) (randbelow : rng -> nat -> nat * rng)
    (g : rng) (table : list str) :
  (forall g n, (0 < n)%nat -> (fst (randbelow g n) < n)%nat) ->
  table <> [] ->
  In (fst (choice rng randbelow g table)) table.
Proof.
  intros Hbound Htable. unfold choice.
  pose proof (Hbound g (length table)) as Hi.
  destruct (randbelow g (length table)) as [i g']. cbn [fst] in *.
  apply nth_In. apply Hi. destruct table; [congruence|cbn; lia].
Qed.

(** X15 (fun.py sends one message): for every environment, date and
    generator whose draws are below their bound, the reply of fun.py is a
    single non-empty string of at most 199 characters, printed under
    [response]: no content, help or error text is ever split. *)
Theorem fun_reply_single_message (lower : str -> str) (rng : Type) (seed : Z -> rng)
    (randbelow : rng -> nat -> nat * rng) (now : datetime)
    (environ : gmap string str) :
  (forall g n, (0 < n)%nat -> (fst (randbelow g n) < n)%nat) ->
  exists s,
    s <> [] /\ len s <= 199 /\
    fun_response lower rng seed randbelow now environ = Text s /\
    fun_main lower rng seed randbelow now environ = {[ "response"%string := Text s ]}.
Proof.
  intros Hbound.
  assert (Hkeep : forall s, s <> [] -> len s <= 199 ->
            exists s', s' <> [] /\ len s' <= 199 /\ split_long (Text s) = Text s' /\
                       build_output (ensure_response (split_long (Text s)))
                       = {[ "response"%string := Text s' ]}).
  { intros s Hne Hlen. exists s. cbn [split_long].
    destruct (Z.gtb_spec (len s) 199); [lia|].
    rewrite (ensure_response_text s Hne). repeat split; assumption. }
  assert (Htable : forall table g,
            incl table (trivia_list ++ facts ++ jokes ++ quotes) -> table <> [] ->
            let s := fst (choice rng randbelow g table) in s <> [] /\ len s <= 199).
  { intros table g Hincl Hne s.
    pose proof fun_tables_fit as Hall. rewrite List.Forall_forall in Hall.
    apply Hall, Hincl. now apply choice_in_table. }
  assert (Hhelp : get_help fun_help_text = Text fun_help_text)
    by (vm_compute; reflexivity).
  unfold fun_main, fun_response. rewrite Hhelp.
  destruct (is_help_word _).
  { apply Hkeep; vm_compute; discriminate. }
  destruct (bool_decide (_ = lit "trivia")).
  { apply Hkeep; apply (Htable trivia_list);
      (discriminate || (intros x Hx; apply in_or_app; now left)). }
  destruct (bool_decide (_ = lit "fact")).
  { apply Hkeep; apply (Htable facts);
      (discriminate ||
       (intros x Hx; apply in_or_app; right; apply in_or_app; now left)). }
  destruct (bool_decide (_ = lit "joke")).
  { apply Hkeep; apply (Htable jokes);
      (discriminate ||
       (intros x Hx; do 2 (apply in_or_app; right); apply in_or_app; now left)). }
  destruct (bool_decide (_ = lit "quote")).
  { apply Hkeep; apply (Htable quotes);
      (discriminate || (intros x Hx; do 3 (apply in_or_app; right); exact Hx)). }
  destruct (negb _); apply Hkeep; vm_compute; discriminate.
Qed.

Lemma fun_reply_single_message_witness :
  let now := {| year := 2024; month := 3; day := 5;
                hour := 8; minute := 0; second := 0; microsecond := 0 |} in
  let environ : gmap string str := <["MESSAGE"%string := lit "Joke please"]> ∅ in
  (forall g n, (0 < n)%nat -> (fst (counter_randbelow g n) < n)%nat) /\
  exists s,
    s <> [] /\ len s <= 199 /\
    fun_response lower_ascii Z (fun n => n) counter_randbelow now environ = Text s /\
    fun_main lower_ascii Z (fun n => n) counter_randbelow now environ
    = {[ "response"%string := Text s ]}.
Proof.
  cbv zeta.
  assert (Hbound : forall g n, (0 < n)%nat -> (fst (counter_randbelow g n) < n)%nat).
  { intros g n Hn. unfold counter_randbelow. cbn [fst].
    pose proof (Z.mod_pos_bound g (Z.of_nat n) ltac:(lia)). lia. }
  split; [exact Hbound|].
  exact (fun_reply_single_message lower_ascii Z (fun n => n) counter_randbelow _ _ Hbound).
Defined.

(** ** The message of the last-resort handler *)

(** X16 (error messages fit): the message built from an uncaught
    exception starts with [Error: ], never exceeds 195 characters, is the
    exception text unchanged when that has at most 188 characters, and
    otherwise its first 185 characters followed by three dots. *)
Theorem error_message_fits (e : str) :
  len (error_message e) <= 195 /\
  startswith (lit "Error: ") (error_message e) = true /\
  error_message e
  = if len e <=? 188 then lit "Error: " ++ e
    else lit "Error: " ++ firstn 185 e ++ lit "...".
Proof.
  unfold error_message. rewrite len_app. change (len (lit "Error: ")) with 7.
  destruct (Z.gtb_spec (7 + len e) 195) as [Hbig|Hfit];
    destruct (Z.leb_spec (len e) 188) as [Hle|Hgt]; try lia.
  - assert (Hcut : firstn 192 (lit "Error: " ++ e) = lit "Error: " ++ firstn 185 e)
      by reflexivity.
    rewrite Hcut. repeat split.
    rewrite !len_app. change (len (lit "Error: ")) with 7.
    change (len (lit "...")) with 3. unfold len in *. rewrite length_firstn. lia.
  - repeat split. rewrite len_app. change (len (lit "Error: ")) with 7. lia.
Qed.

(** ** The 12-hour clock of sunrise.py *)

Lemma hour_12_formula (h : Z) :
  0 <= h <= 23 ->
  (let hour_12 := if h <=? 12 then h else h - 12 in
   if hour_12 =? 0 then 12 else hour_12)
  = (h + 11) mod 12 + 1.
Proof.
  intros Hh.
  assert (Hcases : h = 0 \/ h = 1 \/ h = 2 \/ h = 3 \/ h = 4 \/ h = 5 \/ h = 6 \/
                   h = 7 \/ h = 8 \/ h = 9 \/ h = 10 \/ h = 11 \/ h = 12 \/
                   h = 13 \/ h = 14 \/ h = 15 \/ h = 16 \/ h = 17 \/ h = 18 \/
                   h = 19 \/ h = 20 \/ h = 21 \/ h = 22 \/ h = 23) by lia.
  repeat (destruct Hcases as [-> | Hcases]; [reflexivity|]).
  subst h. reflexivity.
Qed.

Section FormatTimeProperties.

Variable int_of : str -> option Z.
Variable to_local : str -> Z -> Z -> Z -> option (Z * Z).
Variable zoneinfo : bool.

(** X17 (12-hour clock): when the time string is three integers
    [h:m:s] that form a valid time, [format_time] renders the local hour
    and minute on the 12-hour clock: hour [(h + 11) mod 12 + 1], so 0
    becomes 12 AM and 12 stays 12 PM, the minute on two digits, AM before
    noon and PM from noon on. The local time is the converted one when a
    zone is given, [zoneinfo] is present and the conversion succeeds, and
    the UTC time otherwise. *)
Theorem format_time_clock (time_str : str) (timezone_name : option str) (h m s : Z) :
  List.map int_of (split COLON time_str) = [Some h; Some m; Some s] ->
  0 <= h <= 23 -> 0 <= m <= 59 -> 0 <= s <= 59 ->
  let local :=
    match timezone_name with
    | Some zone =>
        if nonempty zone && zoneinfo
        then default (h, m) (to_local zone h m s)
        else (h, m)
    | None => (h, m)
    end in
  0 <= fst local <= 23 ->
  format_time int_of to_local zoneinfo time_str timezone_name
  = clock_12 (fst local) (snd local).
Proof.
  intros Hparse Hh Hm Hs local Hlocal. unfold format_time. rewrite Hparse.
  assert (Hvalid : (0 <=? h) && (h <=? 23) && (0 <=? m) && (m <=? 59)
                   && (0 <=? s) && (s <=? 59) = true).
  { repeat (apply andb_true_iff; split); apply Z.leb_le; lia. }
  rewrite Hvalid.
  assert (Hsame : match timezone_name with
                  | Some zone =>
                      if nonempty zone && zoneinfo
                      then match to_local zone h m s with
                           | Some (h', m') => (h', m')
                           | None => (h, m)
                           end
                      else (h, m)
                  | None => (h, m)
                  end = local).
  { subst local. destruct timezone_name as [zone|]; [|reflexivity].
    destruct (nonempty zone && zoneinfo); [|reflexivity].
    destruct (to_local zone h m s) as [[h' m']|]; reflexivity. }
  rewrite Hsame. destruct local as [hl ml]. cbn [fst snd] in *.
  unfold clock_12. now rewrite <- (hour_12_formula hl Hlocal).
Qed.

(** X18 (no failure): when the time string is not three integers
    separated by colons, or they are not a valid time of day,
    [format_time] returns the string as it came. *)
Theorem format_time_fallback (time_str : str) (timezone_name : option str) :
  (forall h m s,
     List.map int_of (split COLON time_str) = [Some h; Some m; Some s] ->
     ~ (0 <= h <= 23 /\ 0 <= m <= 59 /\ 0 <= s <= 59)) ->
  format_time int_of to_local zoneinfo time_str timezone_name = time_str.
Proof.
  intros Hbad. unfold format_time.
  destruct (List.map int_of (split COLON time_str))
    as [|[h|] [|[m|] [|[s|] [|x l]]]]; try reflexivity.
  destruct ((0 <=? h) && (h <=? 23) && (0 <=? m) && (m <=? 59)
            && (0 <=? s) && (s <=? 59)) eqn:Hvalid; [|reflexivity].
  exfalso. apply (Hbad h m s eq_refl).
  repeat (apply andb_true_iff in Hvalid as [Hvalid ?]).
  repeat match goal with H : (_ <=? _) = true |- _ => apply Z.leb_le in H end.
  lia.
Qed.

End FormatTimeProperties.

Lemma format_time_clock_witness :
  let time_str := lit "00:05:09" in
  (List.map int_of_digits (split COLON time_str) = [Some 0; Some 5; Some 9] /\
   0 <= 0 <= 23 /\ 0 <= 5 <= 59 /\ 0 <= 9 <= 59) /\
  format_time int_of_digits (fun _ _ _ _ => None) false time_str None = lit "12:05 AM" /\
  format_time int_of_digits (fun _ h m _ => Some ((h + 19) mod 24, m)) true
    time_str (Some (lit "America/New_York")) = lit "7:05 PM".
Proof.
  cbv zeta.
  assert (Hp : List.map int_of_digits (split COLON (lit "00:05:09"))
               = [Some 0; Some 5; Some 9]) by reflexivity.
  assert (Hh : 0 <= 0 <= 23) by lia.
  assert (Hm : 0 <= 5 <= 59) by lia.
  assert (Hs : 0 <= 9 <= 59) by lia.
  split; [repeat split; (assumption || lia)|]. split.
  - apply (format_time_clock int_of_digits (fun _ _ _ _ => None) false
             (lit "00:05:09") None 0 5 9 Hp Hh Hm Hs).
    vm_compute. split; discriminate.
  - apply (format_time_clock int_of_digits (fun _ h m _ => Some ((h + 19) mod 24, m)) true
             (lit "00:05:09") (Some (lit "America/New_York")) 0 5 9 Hp Hh Hm Hs).
    vm_compute. split; discriminate.
Defined.

Lemma format_time_fallback_witness :
  (forall h m s,
     List.map int_of_digits (split COLON (lit "24:00:00")) = [Some h; Some m; Some s] ->
     ~ (0 <= h <= 23 /\ 0 <= m <= 59 /\ 0 <= s <= 59)) /\
  format_time int_of_digits (fun _ _ _ _ => None) false (lit "24:00:00") None
  = lit "24:00:00".
Proof.
  assert (Hbad : forall h m s,
             List.map int_of_digits (split COLON (lit "24:00:00"))
             = [Some h; Some m; Some s] ->
             ~ (0 <= h <= 23 /\ 0 <= m <= 59 /\ 0 <= s <= 59)).
  { intros h m s Hp. vm_compute in Hp. injection Hp as <- <- <-. lia. }
  split; [exact Hbad|].
  exact (format_time_fallback int_of_digits (fun _ _ _ _ => None) false
           (lit "24:00:00") None Hbad).
Defined.

(** ** The text is cut at separators only *)

Lemma space_as_newline_app (a b : str) :
  space_as_newline (a ++ b) = space_as_newline a ++ space_as_newline b.
Proof. apply List.map_app. Qed.

Lemma joined_snoc (l : list str) (x : str) :
  l <> [] -> joined (l ++ [x]) = joined l ++ [NEWLINE] ++ space_as_newline x.
Proof.
  intros Hl. unfold joined. rewrite join_snoc by exact Hl.
  now rewrite !space_as_newline_app.
Qed.

Lemma joined_cons (x : str) (l : list str) :
  l <> [] -> joined (x :: l) = space_as_newline x ++ [NEWLINE] ++ joined l.
Proof.
  intros Hl. unfold joined. rewrite join_cons by exact Hl.
  now rewrite !space_as_newline_app.
Qed.

(** Joined with spaces or with newlines, a list of pieces reads the
    same. *)
Lemma joined_piece (sep : char) (cur : list str) :
  sep = SPACE \/ sep = NEWLINE ->
  space_as_newline (join [sep] cur) = joined cur.
Proof.
  intros Hsep. unfold joined. induction cur as [|x cur IH]; [reflexivity|].
  destruct cur as [|y cur']; [reflexivity|].
  rewrite (join_cons [sep]), (join_cons [NEWLINE]) by discriminate.
  rewrite !space_as_newline_app, IH.
  destruct Hsep as [-> | ->]; reflexivity.
Qed.

(** A flushed accumulator reads like its pieces. *)
Lemma joined_flush (sep : char) (messages cur : list str) :
  sep = SPACE \/ sep = NEWLINE -> cur <> [] ->
  joined (messages ++ [join [sep] cur]) = joined (messages ++ cur).
Proof.
  intros Hsep Hcur. induction messages as [|m messages IH].
  - cbn [app]. unfold joined at 1. cbn [join]. now apply joined_piece.
  - cbn [app]. rewrite !joined_cons, IH; [reflexivity|..].
    + destruct messages; [exact Hcur|discriminate].
    + destruct messages; discriminate.
Qed.

Lemma stands_for_joined_snoc (l seen : list str) (x : str) :
  (l = [] /\ seen = []) \/ (l <> [] /\ seen <> [] /\ joined l = joined seen) ->
  joined (l ++ [x]) = joined (seen ++ [x]).
Proof.
  intros [[-> ->]|(Hl & Hs & Hj)]; [reflexivity|].
  now rewrite !joined_snoc, Hj by assumption.
Qed.

Lemma stands_for_joined_flush (sep : char) (messages cur seen : list str) :
  sep = SPACE \/ sep = NEWLINE ->
  stands_for_joined (messages, cur) seen ->
  stands_for_joined
    (match cur with [] => messages | _ :: _ => messages ++ [join [sep] cur] end, [])
    seen.
Proof.
  intros Hsep Hst. unfold stands_for_joined in *. cbn [fst snd] in *.
  rewrite app_nil_r. destruct cur as [|x cur'].
  - now rewrite app_nil_r in Hst.
  - destruct Hst as [[Hnil _]|(_ & Hs & Hj)]; [destruct messages; discriminate|].
    right. split; [destruct messages; discriminate|]. split; [exact Hs|].
    rewrite joined_flush by (assumption || discriminate). exact Hj.
Qed.

Section CutAtSeparators.

Variable max_chars : Z.

Lemma word_step_stands_for (st : acc) (seen : list str) (word : str) :
  stands_for_joined st seen ->
  stands_for_joined (word_step max_chars st word) (seen ++ [word]).
Proof.
  destruct st as [messages cl]. intros Hst. unfold word_step.
  destruct (_ <=? _).
  - unfold stands_for_joined in *. cbn [fst snd] in *. right.
    split; [destruct messages; destruct cl; discriminate|].
    split; [destruct seen; discriminate|].
    rewrite app_assoc. now apply stands_for_joined_snoc.
  - apply (stands_for_joined_flush SPACE) in Hst; [|now left].
    unfold stands_for_joined in *. cbn [fst snd] in *. rewrite app_nil_r in Hst.
    right. split; [destruct (match cl with [] => _ | _ :: _ => _ end); discriminate|].
    split; [destruct seen; discriminate|].
    now apply stands_for_joined_snoc.
Qed.

Lemma word_loop_stands_for (words : list str) (st : acc) (seen : list str) :
  stands_for_joined st seen ->
  stands_for_joined (fold_left (word_step max_chars) words st) (seen ++ words).
Proof.
  revert st seen. induction words as [|w words IH]; intros st seen Hst.
  - now rewrite app_nil_r.
  - cbn [fold_left].
    replace (seen ++ w :: words) with ((seen ++ [w]) ++ words)
      by now rewrite <- app_assoc.
    apply IH. now apply word_step_stands_for.
Qed.

Lemma line_step_stands_for_joined (st : acc) (seen : list str) (line : str) :
  stands_for_joined st seen ->
  stands_for_joined (line_step max_chars st line) (seen ++ [line]).
Proof.
  destruct st as [messages cm]. intros Hst. unfold line_step.
  destruct (_ <=? _).
  - unfold stands_for_joined in *. cbn [fst snd] in *. right.
    split; [destruct messages; destruct cm; discriminate|].
    split; [destruct seen; discriminate|].
    rewrite app_assoc. now apply stands_for_joined_snoc.
  - apply (stands_for_joined_flush NEWLINE) in Hst; [|now right].
    destruct (_ >? _).
    + pose proof (word_loop_stands_for (split SPACE line) _ seen Hst) as Hw.
      pose proof (fold_left_last_step (word_step max_chars) (fun st => snd st <> [])
                    (split SPACE line)
                    (match cm with
                     | [] => messages
                     | _ :: _ => messages ++ [join [NEWLINE] cm]
                     end, [])
                    (split_not_nil _ _) (word_step_acc_nonempty max_chars)) as Hne.
      destruct (fold_left _ _ _) as [messages2 cl]. cbn [snd] in Hne.
      destruct cl as [|w cl']; [congruence|].
      unfold stands_for_joined in *. cbn [fst snd] in *. right.
      split; [destruct messages2; discriminate|].
      split; [destruct seen; discriminate|].
      rewrite (joined_flush SPACE) by (now left || discriminate).
      destruct Hw as [[Hnil _]|(_ & _ & Hj)]; [destruct messages2; discriminate|].
      rewrite Hj. rewrite <- (join_split SPACE line) at 2.
      symmetry. apply (joined_flush SPACE); [now left|apply split_not_nil].
    + unfold stands_for_joined in *. cbn [fst snd] in *. rewrite app_nil_r in Hst.
      right. split; [destruct (match cm with [] => _ | _ :: _ => _ end); discriminate|].
      split; [destruct seen; discriminate|].
      now apply stands_for_joined_snoc.
Qed.

Lemma line_loop_stands_for_joined (lines : list str) (st : acc) (seen : list str) :
  stands_for_joined st seen ->
  stands_for_joined (fold_left (line_step max_chars) lines st) (seen ++ lines).
Proof.
  revert st seen. induction lines as [|line lines IH]; intros st seen Hst.
  - now rewrite app_nil_r.
  - cbn [fold_left].
    replace (seen ++ line :: lines) with ((seen ++ [line]) ++ lines)
      by now rewrite <- app_assoc.
    apply IH. now apply line_step_stands_for_joined.
Qed.

(** X19 (cut at separators only): the messages joined with newlines are
    the text in which the spaces where long lines were cut have become
    newlines; the two are equal once every space is read as a newline.
    Every other character is kept in place, and each cut takes the place
    of exactly one separator. *)
Theorem split_message_rejoined (text : str) :
  space_as_newline (join [NEWLINE] (split_message text max_chars))
  = space_as_newline text.
Proof.
  unfold split_message. destruct (_ <=? _); [reflexivity|].
  pose proof (line_loop_stands_for_joined (split NEWLINE text) ([], []) []
                ltac:(left; split; reflexivity)) as Hst.
  cbn [app] in Hst.
  apply (stands_for_joined_flush NEWLINE) in Hst; [|now right].
  destruct (fold_left _ _ _) as [messages cm].
  unfold stands_for_joined in Hst. cbn [fst snd] in Hst. rewrite app_nil_r in Hst.
  destruct Hst as [[_ Hnil]|(_ & _ & Hj)]; [now apply split_not_nil in Hnil|].
  unfold joined in Hj. rewrite Hj. now rewrite join_split.
Qed.

End CutAtSeparators.

(** ** The reply text of sunrise.py *)

Lemma split_second (sep : char) (a b : str) :
  contains sep a = false ->
  split sep (a ++ sep :: b) = a :: split sep b.
Proof.
  induction a as [|c a IH]; cbn [app split contains existsb].
  - intros _. now rewrite N.eqb_refl.
  - intros H. apply orb_false_iff in H as [Hc Ha].
    rewrite N.eqb_sym, Hc, (IH Ha). reflexivity.
Qed.

Lemma split_app_free (sep : char) (a b : str) :
  contains sep a = false ->
  split sep (a ++ b)
  = match split sep b with
    | w :: ws => (a ++ w) :: ws
    | [] => [a]
    end.
Proof.
  induction a as [|c a IH]; cbn [app split contains existsb].
  - intros _. pose proof (split_not_nil sep b).
    destruct (split sep b); [congruence|reflexivity].
  - intros H. apply orb_false_iff in H as [Hc Ha].
    rewrite N.eqb_sym, Hc, (IH Ha).
    destruct (split sep b); reflexivity.
Qed.

(** X20 (time of a timestamp): from a timestamp made of a date without
    [T], the letter [T], a time without [T] and [+], a [+] and an
    offset, [utc_time] extracts the time; from a string without [T] it
    extracts nothing, which [get_sunrise_sunset] reports as an error. *)
Theorem utc_time_of_timestamp (date time offset iso : str) :
  (contains T_LETTER date = false ->
   contains T_LETTER time = false -> contains PLUS time = false ->
   utc_time (date ++ [T_LETTER] ++ time ++ [PLUS] ++ offset) = Some time) /\
  (contains T_LETTER iso = false -> utc_time iso = None).
Proof.
  split.
  - intros Hdate HtimeT Htime. unfold utc_time. cbn [app].
    rewrite (split_second T_LETTER date _ Hdate).
    rewrite (split_app_free T_LETTER time _ HtimeT).
    cbn [split]. change (N.eqb PLUS T_LETTER) with false. cbv iota.
    destruct (split T_LETTER offset) as [|w ws];
      f_equal; apply split_head; exact Htime.
  - intros Hiso. unfold utc_time. now rewrite (split_free _ _ Hiso).
Qed.

Lemma utc_time_of_timestamp_witness :
  let date := lit "2015-05-21" in
  let time := lit "05:05:35" in
  (contains T_LETTER date = false /\ contains T_LETTER time = false /\
   contains PLUS time = false /\ contains T_LETTER (lit "05:05:35") = false) /\
  utc_time (date ++ [T_LETTER] ++ time ++ [PLUS] ++ lit "00:00") = Some time /\
  utc_time (lit "05:05:35") = None.
Proof.
  cbv zeta.
  assert (H1 : contains T_LETTER (lit "2015-05-21") = false) by reflexivity.
  assert (H2 : contains T_LETTER (lit "05:05:35") = false) by reflexivity.
  assert (H3 : contains PLUS (lit "05:05:35") = false) by reflexivity.
  split; [repeat split; assumption|]. split.
  - exact (proj1 (utc_time_of_timestamp (lit "2015-05-21") (lit "05:05:35")
                    (lit "00:00") []) H1 H2 H3).
  - exact (proj2 (utc_time_of_timestamp [] [] [] (lit "05:05:35")) H2).
Defined.

(** X21 (the reply of sunrise.py): when the service answers [OK] with
    two timestamps that hold a [T], the reply is the titled location, the
    two formatted times and the day length as [H]h [M]m, where [M] is
    between 0 and 59 and [H] hours [M] minutes is the day length rounded
    down to the minute; any other status is an error, and a timestamp
    without [T] is reported as an error instead of failing. *)
Theorem sunrise_text_day_length (int_of : str -> option Z)
    (to_local : str -> Z -> Z -> Z -> option (Z * Z)) (zoneinfo : bool)
    (title : str -> str) (location : str) (timezone_name : option str)
    (status : option str) (sunrise_utc sunset_utc : str) (day_length : Z) :
  let reply := sunrise_text int_of to_local zoneinfo title location timezone_name
                 status sunrise_utc sunset_utc day_length in
  (status <> Some (lit "OK") ->
   reply = Err (lit "Sunrise-sunset API returned an error")) /\
  (status = Some (lit "OK") ->
   contains T_LETTER sunrise_utc = false \/ contains T_LETTER sunset_utc = false ->
   reply = Err (lit "Unexpected error: list index out of range")) /\
  (status = Some (lit "OK") ->
   forall rise set,
     utc_time sunrise_utc = Some rise -> utc_time sunset_utc = Some set ->
     exists H M,
       0 <= M <= 59 /\
       3600 * H + 60 * M <= day_length < 3600 * H + 60 * M + 60 /\
       reply = Ok (title location ++ lit ": Sunrise "
                   ++ format_time int_of to_local zoneinfo rise timezone_name
                   ++ lit " | Sunset "
                   ++ format_time int_of to_local zoneinfo set timezone_name
                   ++ lit " | Day: " ++ str_of_Z H ++ lit "h "
                   ++ str_of_Z M ++ lit "m")).
Proof.
  intros reply. subst reply. unfold sunrise_text. repeat split.
  - intros Hstatus. rewrite bool_decide_eq_false_2 by exact Hstatus. reflexivity.
  - intros Hstatus Hno. rewrite bool_decide_eq_true_2 by exact Hstatus. cbn [negb].
    destruct Hno as [Hno|Hno].
    + unfold utc_time at 1. rewrite (split_free _ _ Hno). reflexivity.
    + destruct (utc_time sunrise_utc); [|reflexivity].
      unfold utc_time. rewrite (split_free _ _ Hno). reflexivity.
  - intros Hstatus rise set Hrise Hset.
    rewrite bool_decide_eq_true_2 by exact Hstatus. cbn [negb].
    rewrite Hrise, Hset.
    exists (day_length / 3600), ((day_length mod 3600) / 60).
    pose proof (Z.div_mod day_length 3600 ltac:(lia)) as Hd.
    pose proof (Z.mod_pos_bound day_length 3600 ltac:(lia)) as Hr.
    pose proof (Z.div_mod (day_length mod 3600) 60 ltac:(lia)) as Hd'.
    pose proof (Z.mod_pos_bound (day_length mod 3600) 60 ltac:(lia)) as Hr'.
    assert (0 <= (day_length mod 3600) / 60 <= 59).
    { split; [apply Z.div_pos; lia|].
      apply Z.lt_succ_r. apply Z.div_lt_upper_bound; lia. }
    repeat split; try lia.
Qed.

Lemma sunrise_text_day_length_witness :
  let reply := sunrise_text int_of_digits (fun _ _ _ _ => None) false (fun s => s)
                 (lit "Paris") None (Some (lit "OK"))
                 (lit "2015-05-21T05:05:35+00:00") (lit "2015-05-21T19:22:59+00:00")
                 51444 in
  (Some (lit "OK") = Some (lit "OK") /\
   utc_time (lit "2015-05-21T05:05:35+00:00") = Some (lit "05:05:35") /\
   utc_time (lit "2015-05-21T19:22:59+00:00") = Some (lit "19:22:59")) /\
  exists H M,
    0 <= M <= 59 /\ 3600 * H + 60 * M <= 51444 < 3600 * H + 60 * M + 60 /\
    reply = Ok (lit "Paris" ++ lit ": Sunrise "
                ++ format_time int_of_digits (fun _ _ _ _ => None) false
                     (lit "05:05:35") None
                ++ lit " | Sunset "
                ++ format_time int_of_digits (fun _ _ _ _ => None) false
                     (lit "19:22:59") None
                ++ lit " | Day: " ++ str_of_Z H ++ lit "h " ++ str_of_Z M ++ lit "m").
Proof.
  cbv zeta.
  assert (Hs : Some (lit "OK") = Some (lit "OK")) by reflexivity.
  assert (Hr : utc_time (lit "2015-05-21T05:05:35+00:00") = Some (lit "05:05:35"))
    by reflexivity.
  assert (Ht : utc_time (lit "2015-05-21T19:22:59+00:00") = Some (lit "19:22:59"))
    by reflexivity.
  split; [repeat split; assumption|].
  exact (proj2 (proj2 (sunrise_text_day_length int_of_digits (fun _ _ _ _ => None)
                         false (fun s => s) (lit "Paris") None (Some (lit "OK"))
                         (lit "2015-05-21T05:05:35+00:00")
                         (lit "2015-05-21T19:22:59+00:00") 51444))
           Hs (lit "05:05:35") (lit "19:22:59") Hr Ht).
Defined.

Lemma split_message_join_lines_witness :
  let text := lit "ab" ++ [NEWLINE] ++ lit "cd" ++ [NEWLINE] ++ lit "ef" in
  Forall (fun line => len line <= 5) (split NEWLINE text) /\
  join [NEWLINE] (split_message text 5) = text.
Proof.
  cbv zeta.
  assert (H : Forall (fun line => len line <= 5)
                (split NEWLINE (lit "ab" ++ [NEWLINE] ++ lit "cd" ++ [NEWLINE] ++ lit "ef"))).
  { vm_compute. repeat constructor; discriminate. }
  split; [exact H|].
  exact (split_message_join_lines 5 _ H).
Defined.
